(** * biomakerca/utils.py: a shallow embedding and its properties

    The module holds five small helpers: [dotdict], [split_2d],
    [conditional_update], [stringify_class] and the pair
    [save_dna] / [load_dna].  Part I embeds each of them in a module of
    its own; Part II states and proves what holds of them. *)

From Stdlib Require Import ZArith Lia Floats Ascii.
From stdpp Require Import gmap strings list fin_maps pretty.

Local Open Scope string_scope.

(** * Part I: the embedding *)

(** ** Python strings

    A [str] is modelled by [string]; [+:+] is concatenation.  The
    functions below are the pieces of the [str] interface the module
    calls. *)

Module PyStr.

(** The line feed, Python's ["\n"], as a character and as a string. *)
Definition LF : ascii := Ascii.ascii_of_nat 10.

Definition NL : string := String LF EmptyString.

(** [sep.join(parts)]. *)
Fixpoint join (sep : string) (parts : list string) : string :=
  match parts with
  | [] => ""
  | p :: rest =>
      match rest with
      | [] => p
      | _ :: _ => p +:+ sep +:+ join sep rest
      end
  end.

(** [c in s] for a one-character [c]. *)
Fixpoint contains_char (c : ascii) (s : string) : bool :=
  match s with
  | EmptyString => false
  | String a s' => if decide (a = c) then true else contains_char c s'
  end.

(** [s.replace("\n", by_)]: every line feed becomes [by_]. *)
Fixpoint replace_LF (by_ : string) (s : string) : string :=
  match s with
  | EmptyString => EmptyString
  | String a s' =>
      if decide (a = LF) then by_ +:+ replace_LF by_ s'
      else String a (replace_LF by_ s')
  end.

(** [s.lower()] on the ASCII range: [A]..[Z] go to [a]..[z], every other
    byte stays.  (Python lowers non-ASCII letters too; none of them
    lowers to a character of [".npy"], the only suffix compared here.) *)
Definition lower_char (a : ascii) : ascii :=
  let n := Ascii.nat_of_ascii a in
  if (65 <=? n)%nat && (n <=? 90)%nat then Ascii.ascii_of_nat (n + 32) else a.

Fixpoint lower (s : string) : string :=
  match s with
  | EmptyString => EmptyString
  | String a s' => String (lower_char a) (lower s')
  end.

(** [s.endswith(suffix)]: some tail of [s] is [suffix]. *)
Fixpoint endswith (s suffix : string) : bool :=
  bool_decide (s = suffix)
  || match s with
     | EmptyString => false
     | String _ s' => endswith s' suffix
     end.

(** [s.startswith(p)]. *)
Definition startswith (s p : string) : bool := String.prefix p s.

(** [s.split("\n")]: the pieces between line feeds; there is always at
    least one piece.  [cur] collects the current piece, reversed. *)
Fixpoint split_LF_go (cur : string) (s : string) : list string :=
  match s with
  | EmptyString => [String.rev cur]
  | String a s' =>
      if decide (a = LF) then String.rev cur :: split_LF_go "" s'
      else split_LF_go (String a cur) s'
  end.

Definition split_LF (s : string) : list string := split_LF_go "" s.

End PyStr.

(** ** Python objects, as far as the module looks at them

    [stringify_class] and [save_dna] only ever ask an object for its
    [str()] and whether it is callable. *)

Record pyobj := PyObj { py_str : string; py_callable : bool }.

(** A [str] object: it prints as itself and cannot be called. *)
Definition str_obj (s : string) : pyobj :=
  {| py_str := s; py_callable := false |}.

(** What [callable] can be handed: an object, or a tuple of objects.  A
    tuple has no [__call__], whatever it holds. *)
Inductive pyarg :=
| AnObject (o : pyobj)
| ATuple (elems : list pyobj).

Definition callable (x : pyarg) : bool :=
  match x with
  | AnObject o => py_callable o
  | ATuple _ => false
  end.

(** ** dotdict

    [class dotdict(dict)] with [__getattr__ = dict.get],
    [__setattr__ = dict.__setitem__], [__delattr__ = dict.__delitem__]. *)

Module DotDict.

(** Values a dictionary can hold, and what an attribute read can give. *)
Inductive pyval :=
| PyNone
| PyInt (z : Z)
| PyText (s : string)
| PyClassAttr (name : string).   (* an attribute found on the class *)

Inductive pyexn := KeyError (k : string).

Inductive result (A : Type) :=
| Ok (a : A)
| Raise (e : pyexn).
Arguments Ok {A} a.
Arguments Raise {A} e.

(** Names that [dict], [object] and the class statement of [dotdict]
    define (CPython 3.11).  Python looks an attribute up on the type before
    it falls back on [__getattr__]. *)
Definition dict_type_attrs : list string :=
  [ "__class__"; "__class_getitem__"; "__contains__"; "__delattr__";
    "__delitem__"; "__dir__"; "__doc__"; "__eq__"; "__format__"; "__ge__";
    "__getattribute__"; "__getitem__"; "__getstate__"; "__gt__"; "__init__";
    "__init_subclass__"; "__ior__"; "__iter__"; "__le__"; "__len__";
    "__lt__"; "__ne__"; "__new__"; "__or__"; "__reduce__";
    "__reduce_ex__"; "__repr__"; "__reversed__"; "__ror__"; "__setattr__";
    "__setitem__"; "__sizeof__"; "__str__"; "__subclasshook__"; "clear";
    "copy"; "fromkeys"; "get"; "items"; "keys"; "pop"; "popitem";
    "setdefault"; "update"; "values";
    "__getattr__"; "__module__"; "__dict__"; "__weakref__" ].

(** The lookup on the type; [dict] sets [__hash__ = None] there. *)
Definition class_lookup (k : string) : option pyval :=
  if decide (k = "__hash__") then Some PyNone
  else if decide (k ∈ dict_type_attrs) then Some (PyClassAttr k)
  else None.

(** [dict.get(d, k)]: the value, or the default [None]. *)
Definition dict_get (d : gmap string pyval) (k : string) : pyval :=
  default PyNone (d !! k).

(** [d[k]]. *)
Definition getitem (d : gmap string pyval) (k : string) : result pyval :=
  match d !! k with
  | Some v => Ok v
  | None => Raise (KeyError k)
  end.

(** [d[k] = v]. *)
Definition setitem (d : gmap string pyval) (k : string) (v : pyval)
  : gmap string pyval :=
  <[k := v]> d.

(** [del d[k]]. *)
Definition delitem (d : gmap string pyval) (k : string)
  : result (gmap string pyval) :=
  match d !! k with
  | Some _ => Ok (delete k d)
  | None => Raise (KeyError k)
  end.

(** [d.k]: the normal lookup first, [__getattr__ = dict.get] only when
    that finds nothing. *)
Definition getattr (d : gmap string pyval) (k : string) : result pyval :=
  match class_lookup k with
  | Some a => Ok a
  | None => Ok (dict_get d k)
  end.

(** [d.k = v]: [__setattr__ = dict.__setitem__]. *)
Definition setattr (d : gmap string pyval) (k : string) (v : pyval)
  : gmap string pyval :=
  setitem d k v.

(** [del d.k]: [__delattr__ = dict.__delitem__]. *)
Definition delattr (d : gmap string pyval) (k : string)
  : result (gmap string pyval) :=
  delitem d k.

End DotDict.

(** ** split_2d

    [vmap(lambda k: jr.split(k, h))(jr.split(key, w))].  [jr.split] is the
    generator's own primitive, taken here as a function from a key and a
    count to that many keys; [vmap] over the leading axis is [map]. *)

Module KeyGrid.

Section WithSplit.
Context {key : Type}.
Variable jr_split : key → nat → list key.

Definition vmap {A B : Type} (f : A → B) (xs : list A) : list B := f <$> xs.

Definition split_2d (k : key) (w h : nat) : list (list key) :=
  vmap (λ k', jr_split k' h) (jr_split k w).

(** [vmap2 = lambda f: vmap(vmap(f))]: [f] over the two leading axes. *)
Definition vmap2 {A B : Type} (f : A → B) (grid : list (list A)) : list (list B) :=
  vmap (vmap f) grid.

(** Number of keys in a grid. *)
Definition grid_size (g : list (list key)) : nat :=
  sum_list (length <$> g).

End WithSplit.

(** A generator to run the lemmas on: a key is the path of child numbers
    that leads to it. *)
Definition path_split (k : list nat) (n : nat) : list (list nat) :=
  (λ i, (k ++ [i])%list) <$> seq 0 n.

End KeyGrid.

(** ** conditional_update

    [arr.at[idx].set((1 - cond) * arr[idx] + cond * val)].

    An array is the list of its elements.  The arithmetic is the one of
    the array's dtype, so the embedding is written once over a [Dtype]
    and instantiated at a wrapping integer and at a floating dtype. *)

Module CondUpdate.

Class Dtype (A : Type) := {
  dt_one : A;
  dt_add : A → A → A;
  dt_sub : A → A → A;
  dt_mul : A → A → A
}.

(** Signed 32-bit integers: every operation wraps around. *)
Definition wrap32 (z : Z) : Z := (z + 2 ^ 31) `mod` 2 ^ 32 - 2 ^ 31.

Definition in_int32 (z : Z) : Prop := (- 2 ^ 31 ≤ z < 2 ^ 31)%Z.

#[export] Instance int32_dtype : Dtype Z := {|
  dt_one := 1%Z;
  dt_add := λ a b, wrap32 (a + b);
  dt_sub := λ a b, wrap32 (a - b);
  dt_mul := λ a b, wrap32 (a * b)
|}.

(** IEEE 754 binary floating point. *)
#[export] Instance float_dtype : Dtype float := {|
  dt_one := 1%float;
  dt_add := PrimFloat.add;
  dt_sub := PrimFloat.sub;
  dt_mul := PrimFloat.mul
|}.

(** An index expression, by what it selects: one position (a 0-d
    selection), or a list of positions (a slice, a mask or an index array:
    a 1-d selection).  Positions are counted from 0, negative indices
    already resolved. *)
Inductive index :=
| One (p : nat)
| Many (ps : list nat).

Definition positions (idx : index) : list nat :=
  match idx with
  | One p => [p]
  | Many ps => ps
  end.

(** [val] and [cond]: a scalar, or a 1-d array. *)
Inductive operand (A : Type) :=
| Scalar (a : A)
| Vector (l : list A).
Arguments Scalar {A} a.
Arguments Vector {A} l.

(** Broadcasting an operand to the shape [idx] selects.  A scalar fits
    every shape; a vector fits a 1-d selection of its own length, and a
    vector of length one is stretched.  Anything else is a shape error. *)
Definition broadcast {A : Type} (idx : index) (x : operand A) : option (list A) :=
  match idx, x with
  | One _, Scalar a => Some [a]
  | One _, Vector _ => None
  | Many ps, Scalar a => Some (replicate (length ps) a)
  | Many ps, Vector l =>
      if decide (length l = length ps) then Some l
      else match l with
           | [a] => Some (replicate (length ps) a)
           | _ => None
           end
  end.

(** [arr[idx]]: the selected elements, in the order of [idx].  A position
    outside the array gives [None]: the embedding covers in-range
    indexing only. *)
Definition gather {A : Type} (arr : list A) (idx : index) : option (list A) :=
  mapM (λ p, arr !! p) (positions idx).

(** [(1 - cond) * a + cond * v], elementwise. *)
Definition blend `{Dtype A} (c a v : A) : A :=
  dt_add (dt_mul (dt_sub dt_one c) a) (dt_mul c v).

Fixpoint blend_all `{Dtype A} (cs as_ vs : list A) : list A :=
  match cs, as_, vs with
  | c :: cs', a :: as', v :: vs' => blend c a v :: blend_all cs' as' vs'
  | _, _, _ => []
  end.

(** [arr.at[idx].set(xs)]: a new list with [xs] written at the positions
    of [idx], one after the other. *)
Fixpoint scatter {A : Type} (arr : list A) (ps : list nat) (xs : list A) : list A :=
  match ps, xs with
  | p :: ps', x :: xs' => scatter (<[p := x]> arr) ps' xs'
  | _, _ => arr
  end.

Definition conditional_update `{Dtype A}
    (arr : list A) (idx : index) (val cond : operand A) : option (list A) :=
  old ← gather arr idx;
  cs ← broadcast idx cond;
  vs ← broadcast idx val;
  Some (scatter arr (positions idx) (blend_all cs old vs)).

(** The element of a broadcast operand that meets the [j]-th selected
    position. *)
Definition operand_at {A : Type} (idx : index) (x : operand A) (j : nat) : option A :=
  l ← broadcast idx x; l !! j.

End CondUpdate.

(** ** stringify_class *)

Module Stringify.

(** An instance, as [stringify_class] sees it: [type(instance).__name__]
    and [vars(instance).items()], the attributes in insertion order. *)
Record instance := Instance_ {
  type_name : string;
  vars : list (string * pyobj)
}.

(** Truth value of [include_list]: [None] and the empty list are false. *)
Definition truthy (include_list : option (list string)) : bool :=
  match include_list with
  | Some (_ :: _) => true
  | _ => false
  end.

(** [name in names]; asked of [None] only behind a false [and]. *)
Definition name_in (name : string) (names : list string) : bool :=
  bool_decide (name ∈ names).

(** The [if] of the generator expression.  [item] is the pair that
    [vars(instance).items()] yields, and it is [item] that [callable] is
    asked about. *)
Definition keep (exclude_list : list string) (include_list : option (list string))
    (item : string * pyobj) : bool :=
  negb (callable (ATuple [str_obj item.1; item.2]))
  && ((negb (truthy include_list) && negb (name_in item.1 exclude_list))
      || (truthy include_list && name_in item.1 (default [] include_list))).

(** [str(item[0]) + ": " + str(item[1]).replace("\n", ", ")]. *)
Definition entry (item : string * pyobj) : string :=
  item.1 +:+ ": " +:+ PyStr.replace_LF ", " (py_str item.2).

(** The items that get an entry. *)
Definition kept (inst : instance) (exclude_list : list string)
    (include_list : option (list string)) : list (string * pyobj) :=
  filter (λ item, keep exclude_list include_list item = true) (vars inst).

Definition stringify_class (inst : instance) (exclude_list : list string)
    (include_list : option (list string)) : string :=
  type_name inst +:+ ": {"
  +:+ PyStr.join ", " (entry <$> kept inst exclude_list include_list)
  +:+ "}".

End Stringify.

(** ** save_dna and load_dna

    Both run against a world: the files on disk, the resources packaged
    with [self_organising_systems] as [pkg_resources] serves them, the
    clock, and what happens when a path is opened and written.  A
    computation takes a world and gives back what it returned or raised,
    and the world it left behind.

    A block [with open(path, "w") as f: ...] can end in three ways: it
    runs to its end and the file holds what was written; [open] itself
    fails and nothing changes; or [open] succeeds, which creates or
    truncates the file, and the writing fails later (no room left, an
    array the format refuses), which leaves the file with the part that
    was written before. *)

Module Dna.

Record world := World {
  fs : gmap string string;          (* path ↦ content *)
  pkg : gmap string string;         (* resource path ↦ content *)
  clock : N;                        (* nanoseconds since the epoch *)
  can_write : string → bool;        (* does the whole block succeed *)
  can_open : string → bool;         (* if not: does open(path, "w") succeed *)
  room : string → nat               (* and how many bytes are written then *)
}.

Inductive exn :=
| OSError (path : string)           (* open for writing failed *)
| WriteError (path : string)        (* the writing failed after open *)
| FileNotFoundError (path : string)
| ResourceNotFound (path : string)
| ValueError (path : string).       (* not an array payload *)

Inductive outcome (A : Type) :=
| Returned (a : A)
| Raised (e : exn).
Arguments Returned {A} a.
Arguments Raised {A} e.

Definition io (A : Type) : Type := world → outcome A * world.

#[export] Instance io_ret : MRet io := λ A a w, (Returned a, w).

#[export] Instance io_bind : MBind io := λ A B k m w,
  match m w with
  | (Returned a, w') => k a w'
  | (Raised e, w') => (Raised e, w')
  end.

Definition raise {A : Type} (e : exn) : io A := λ w, (Raised e, w).

(** [time.time_ns()]. *)
Definition time_ns : io N := λ w, (Returned (clock w), w).

(** The world with [content] in the file at [path]. *)
Definition with_file (path content : string) (w : world) : world :=
  {| fs := <[path := content]> (fs w); pkg := pkg w; clock := clock w;
     can_write := can_write w; can_open := can_open w; room := room w |}.

(** [with open(path, "w") as f: f.write(content)]; the same for ["wb"]
    and [jp.save(f, ...)]. *)
Definition write_file (path content : string) : io unit := λ w,
  if can_write w path then (Returned (), with_file path content w)
  else if can_open w path
  then (Raised (WriteError path),
        with_file path (String.substring 0 (room w path) content) w)
  else (Raised (OSError path), w).

(** [with open(path, "rb") as f: f.read()]. *)
Definition read_file (path : string) : io string := λ w,
  match fs w !! path with
  | Some content => (Returned content, w)
  | None => (Raised (FileNotFoundError path), w)
  end.

(** [pkg_resources.resource_stream("self_organising_systems", path)]. *)
Definition resource_stream (path : string) : io string := λ w,
  match pkg w !! path with
  | Some content => (Returned content, w)
  | None => (Raised (ResourceNotFound path), w)
  end.

(** Truth value of an optional integer: [None] and [0] are false. *)
Definition int_truthy (x : option Z) : bool :=
  match x with
  | Some z => negb (z =? 0)%Z
  | None => false
  end.

(** [if x: lines.append(label % x)]. *)
Definition optional_line (label : string) (x : option Z) : list string :=
  match x with
  | Some z => if int_truthy x then [label +:+ pretty z] else []
  | None => []
  end.

(** The list [lines] of [save_dna]. *)
Definition sidecar_lines (identifier : string) (config agent_logic mutator : pyobj)
    (env_h env_w : option Z) (author notes : string) : list string :=
  ["dna: " +:+ identifier; py_str config; py_str agent_logic; py_str mutator]
  ++ optional_line "env_h: " env_h
  ++ optional_line "env_w: " env_w
  ++ ["author: " +:+ author]
  ++ ["notes: " +:+ notes].

(** The same list as the specification words it: the identifier itself
    comes first. *)
Definition spec_sidecar_lines (identifier : string) (config agent_logic mutator : pyobj)
    (env_h env_w : option Z) (author notes : string) : list string :=
  [identifier; py_str config; py_str agent_logic; py_str mutator]
  ++ optional_line "env_h: " env_h
  ++ optional_line "env_w: " env_w
  ++ ["author: " +:+ author]
  ++ ["notes: " +:+ notes].

(** [if not file.lower().endswith(".npy"): file = file + ".npy"]. *)
Definition with_npy_suffix (file : string) : string :=
  if negb (PyStr.endswith (PyStr.lower file) ".npy") then file +:+ ".npy"
  else file.

Section WithCodec.
Context {ndarray : Type}.
(** [jp.save] and [jp.load] with [allow_pickle=False], as the bytes one
    writes and the array the other reads back, if any. *)
Variable npy_encode : ndarray → string.
Variable npy_decode : string → option ndarray.

Definition jp_load (path content : string) : io ndarray :=
  match npy_decode content with
  | Some a => mret a
  | None => raise (ValueError path)
  end.

Definition save_dna (dna : ndarray) (configuration_name : string)
    (config agent_logic mutator : pyobj) (env_h env_w : option Z)
    (author notes out_dir : string) : io string :=
  now ← time_ns;
  let identifier := PyStr.join "_" [configuration_name; pretty now] in
  let out_file_path := out_dir +:+ identifier in
  _ ← write_file (out_file_path +:+ ".npy") (npy_encode dna);
  let lines :=
    sidecar_lines identifier config agent_logic mutator env_h env_w author notes in
  _ ← write_file (out_file_path +:+ ".txt") (PyStr.join PyStr.NL lines);
  mret out_file_path.

Definition load_dna (file : string) (load_from_this_package : bool) : io ndarray :=
  let file := with_npy_suffix file in
  if load_from_this_package then
    let resource_path := PyStr.join "/" ["biomakerca"; "dnalib"; file] in
    fstream ← resource_stream resource_path;
    jp_load resource_path fstream
  else
    content ← read_file file;
    jp_load file content.

End WithCodec.

(** The world with the two files of a save written into it. *)
Definition saved (w : world) (out_file_path npy txt : string) : world :=
  with_file (out_file_path +:+ ".txt") txt
    (with_file (out_file_path +:+ ".npy") npy w).


(** A codec to run the lemmas on: an array is its raw data, stored
    behind a magic prefix. *)
Definition magic : string := "NUMPY".

Definition raw_encode (data : string) : string := magic +:+ data.

Definition raw_decode (content : string) : option string :=
  if String.prefix magic content
  then Some (String.substring 5 (String.length content - 5) content)
  else None.

(** A world with nothing on disk where every path can be written. *)
Definition empty_world (now : N) : world :=
  {| fs := ∅; pkg := ∅; clock := now;
     can_write := λ _, true; can_open := λ _, true; room := λ _, 0 |}.

(** A world with nothing on disk where [ok] says what can be written,
    [opens] what can at least be opened, with room for [n] bytes then. *)
Definition world_writing (ok opens : string → bool) (n : nat) (now : N) : world :=
  {| fs := ∅; pkg := ∅; clock := now;
     can_write := ok; can_open := opens; room := λ _, n |}.

(** A world whose package holds one resource and whose disk holds one
    file. *)
Definition world_holding (resource_path resource path content : string) : world :=
  {| fs := {[path := content]}; pkg := {[resource_path := resource]};
     clock := 0;
     can_write := λ _, true; can_open := λ _, true; room := λ _, 0 |}.

End Dna.

(** * Part II: properties *)

(** ** Strings *)

Module PyStrFacts.
Import PyStr.

Lemma app_cons (a : ascii) (s t : string) : String a s +:+ t = String a (s +:+ t).
Proof. reflexivity. Qed.

Lemma app_nil_l (s : string) : "" +:+ s = s.
Proof. reflexivity. Qed.

Lemma app_nil_r (s : string) : s +:+ "" = s.
Proof. induction s as [|a s IH]; [done | by rewrite app_cons, IH]. Qed.

Lemma app_assoc (s1 s2 s3 : string) : (s1 +:+ s2) +:+ s3 = s1 +:+ (s2 +:+ s3).
Proof. induction s1 as [|a s1 IH]; [done | by rewrite !app_cons, IH]. Qed.

Lemma contains_char_app (c : ascii) (s1 s2 : string) :
  contains_char c (s1 +:+ s2) = contains_char c s1 || contains_char c s2.
Proof.
  induction s1 as [|a s1 IH]; [done |].
  rewrite app_cons. simpl. by destruct (decide (a = c)).
Qed.

Lemma replace_LF_clean (by_ s : string) :
  contains_char LF by_ = false →
  contains_char LF (replace_LF by_ s) = false.
Proof.
  intros Hby. induction s as [|a s IH]; simpl; [done |].
  destruct (decide (a = LF)) as [->|Hne].
  - by rewrite contains_char_app, Hby, IH.
  - simpl. by destruct (decide (a = LF)).
Qed.

Lemma join_cons2 (sep p q : string) (rest : list string) :
  join sep (p :: q :: rest) = p +:+ sep +:+ join sep (q :: rest).
Proof. reflexivity. Qed.

Lemma join_clean (sep : string) (parts : list string) :
  contains_char LF sep = false →
  Forall (λ p, contains_char LF p = false) parts →
  contains_char LF (join sep parts) = false.
Proof.
  intros Hsep Hparts. induction Hparts as [|p rest Hp Hrest IH]; [done |].
  destruct rest as [|q rest]; [done |].
  by rewrite join_cons2, !contains_char_app, Hp, Hsep, IH.
Qed.

Lemma lower_app (s1 s2 : string) : lower (s1 +:+ s2) = lower s1 +:+ lower s2.
Proof.
  induction s1 as [|a s1 IH]; [done |].
  rewrite app_cons. simpl. by rewrite IH, app_cons.
Qed.

Lemma endswith_unfold (s x : string) :
  endswith s x
  = bool_decide (s = x)
    || match s with
       | EmptyString => false
       | String _ s' => endswith s' x
       end.
Proof. by destruct s. Qed.

Lemma endswith_refl (s : string) : endswith s s = true.
Proof. by rewrite endswith_unfold, bool_decide_eq_true_2. Qed.

Lemma endswith_app (s x : string) : endswith (s +:+ x) x = true.
Proof.
  induction s as [|a s IH].
  - apply endswith_refl.
  - rewrite app_cons, endswith_unfold, IH. apply orb_true_r.
Qed.

Lemma startswith_app (p s : string) : startswith (p +:+ s) p = true.
Proof.
  unfold startswith. induction p as [|a p IH]; [by destruct s |].
  rewrite app_cons. simpl. by destruct (ascii_dec a a).
Qed.

Lemma rev_app_app (cur acc : string) :
  String.rev_app cur acc = String.rev cur +:+ acc.
Proof.
  revert acc. induction cur as [|b cur IH]; intros acc; [done |].
  unfold String.rev. simpl.
  by rewrite (IH (String b acc)), (IH (String b "")), app_assoc.
Qed.

Lemma rev_cons (a : ascii) (cur rest : string) :
  String.rev (String a cur) +:+ rest = String.rev cur +:+ String a rest.
Proof.
  unfold String.rev at 1. simpl. by rewrite rev_app_app, app_assoc.
Qed.

(** Splitting at line feeds undoes joining with them, as long as no piece
    holds a line feed itself. *)
Lemma split_LF_go_last (cur p : string) :
  contains_char LF p = false →
  split_LF_go cur p = [String.rev cur +:+ p].
Proof.
  revert cur. induction p as [|a p IH]; intros cur Hp; simpl in *.
  - by rewrite app_nil_r.
  - destruct (decide (a = LF)); [done |].
    by rewrite IH, rev_cons.
Qed.

Lemma split_LF_go_line (cur p rest : string) :
  contains_char LF p = false →
  split_LF_go cur (p +:+ String LF rest)
  = (String.rev cur +:+ p) :: split_LF_go "" rest.
Proof.
  revert cur. induction p as [|a p IH]; intros cur Hp.
  - rewrite app_nil_l, app_nil_r. simpl. by destruct (decide (LF = LF)).
  - rewrite app_cons. simpl in *.
    destruct (decide (a = LF)); [done |].
    by rewrite IH, rev_cons.
Qed.

Lemma split_join (parts : list string) :
  parts ≠ [] →
  Forall (λ p, contains_char LF p = false) parts →
  split_LF (join NL parts) = parts.
Proof.
  intros Hne Hparts. unfold split_LF.
  induction Hparts as [|p rest Hp Hrest IH]; [done |].
  destruct rest as [|q rest].
  - simpl. by rewrite split_LF_go_last.
  - rewrite join_cons2. unfold NL at 1. rewrite app_cons, app_nil_l.
    rewrite split_LF_go_line by done. f_equal. by apply IH.
Qed.

End PyStrFacts.

(** ** stringify_class *)

Module StringifyFacts.
Import PyStr PyStrFacts Stringify.

(** The filter never looks at the value: what it asks [callable] about is
    the pair. *)
Lemma keep_by_name (exclude_list : list string) (include_list : option (list string))
    (item : string * pyobj) :
  keep exclude_list include_list item
  = (negb (truthy include_list) && negb (name_in item.1 exclude_list))
    || (truthy include_list && name_in item.1 (default [] include_list)).
Proof. reflexivity. Qed.

Lemma entry_clean (item : string * pyobj) :
  contains_char LF item.1 = false → contains_char LF (entry item) = false.
Proof.
  intros Hname. unfold entry.
  by rewrite !contains_char_app, Hname, replace_LF_clean.
Qed.

Lemma kept_sublist (inst : instance) (exclude_list : list string)
    (include_list : option (list string)) (P : string * pyobj → Prop) :
  Forall P (vars inst) → Forall P (kept inst exclude_list include_list).
Proof.
  rewrite !Forall_forall. intros HP item Hin. apply HP.
  unfold kept in Hin. by apply list_elem_of_filter in Hin as [_ ?].
Qed.

(** So a callable value is kept like any other, once its name passes. *)
Lemma kept_callable (inst : instance) (exclude_list : list string)
    (name : string) (value : pyobj) :
  (name, value) ∈ vars inst →
  py_callable value = true →
  name ∉ exclude_list →
  (name, value) ∈ kept inst exclude_list None.
Proof.
  intros Hin _ Hname. unfold kept. apply list_elem_of_filter. split; [| done].
  rewrite keep_by_name. simpl. rewrite orb_false_r.
  unfold name_in. by rewrite negb_true_iff, bool_decide_eq_false.
Qed.

(** C1, at an instance with one attribute that holds a method: the
    attribute is callable and still gets its entry, where the claim has it
    left out. *)
Lemma stringify_class_shows_callable :
  let step := {| py_str := "<bound method Agent.step>"; py_callable := true |} in
  let inst := {| type_name := "Agent"; vars := [("step", step)] |} in
  callable (AnObject step) = true
  ∧ stringify_class inst [] None = "Agent: {step: <bound method Agent.step>}"
  ∧ stringify_class inst [] (Some ["step"])
    = "Agent: {step: <bound method Agent.step>}".
Proof. by vm_compute. Qed.

(** C8, as stated, fails when the name of the type holds a line feed (a
    class made by [type("A\nB", (), {})]): no attribute name has one, and
    the output does. *)
Lemma stringify_class_type_name_newline :
  let inst := {| type_name := "A" +:+ NL +:+ "B"; vars := [] |} in
  Forall (λ item : string * pyobj, contains_char LF item.1 = false) (vars inst)
  ∧ contains_char LF (stringify_class inst [] None) = true.
Proof. split; [constructor | by vm_compute]. Qed.

(** C8, amended: when neither the type name nor any attribute name holds a
    line feed, the output starts with the type name and [": {"], ends with
    ["}"], and holds no line feed; every value is rendered with its line
    feeds replaced by [", "]. *)
Theorem stringify_class_one_line (inst : instance) (exclude_list : list string)
    (include_list : option (list string)) :
  contains_char LF (type_name inst) = false →
  Forall (λ item, contains_char LF item.1 = false) (vars inst) →
  let out := stringify_class inst exclude_list include_list in
  startswith out (type_name inst +:+ ": {") = true
  ∧ endswith out "}" = true
  ∧ contains_char LF out = false
  ∧ Forall (λ item, contains_char LF (replace_LF ", " (py_str item.2)) = false)
      (vars inst).
Proof.
  intros Htype Hnames out. subst out. unfold stringify_class.
  repeat split.
  - rewrite <- app_assoc. apply startswith_app.
  - rewrite <- !app_assoc. apply endswith_app.
  - rewrite !contains_char_app, Htype. simpl.
    rewrite join_clean; [done .. |].
    apply Forall_fmap, (kept_sublist inst exclude_list include_list).
    apply (Forall_impl _ _ _ Hnames). intros item. apply entry_clean.
  - apply Forall_forall. intros item _. by apply replace_LF_clean.
Qed.

Lemma stringify_class_one_line_witness :
  let inst := {| type_name := "Agent";
                 vars := [("notes", str_obj ("a" +:+ NL +:+ "b"))] |} in
  contains_char LF (stringify_class inst [] None) = false.
Proof.
  intros inst.
  refine (proj1 (proj2 (proj2 (stringify_class_one_line inst [] None _ _)))).
  - reflexivity.
  - repeat constructor.
Defined.

Lemma kept_no_include (inst : instance) (exclude_list : list string)
    (include_list : option (list string)) :
  truthy include_list = false →
  kept inst exclude_list include_list
  = filter (λ item, item.1 ∉ exclude_list) (vars inst).
Proof.
  intros Hfalsy. unfold kept. apply list_filter_iff. intros item.
  rewrite keep_by_name, Hfalsy. simpl. rewrite orb_false_r.
  unfold name_in. rewrite negb_true_iff, bool_decide_eq_false. done.
Qed.

(** C10: an empty inclusion list is the same as none: in both cases the
    entries are those of all attributes whose name is not excluded. *)
Theorem stringify_class_empty_include (inst : instance) (exclude_list : list string) :
  stringify_class inst exclude_list (Some [])
  = stringify_class inst exclude_list None
  ∧ stringify_class inst exclude_list (Some [])
    = type_name inst +:+ ": {"
      +:+ join ", " (entry <$> filter (λ item, item.1 ∉ exclude_list) (vars inst))
      +:+ "}".
Proof.
  split; [reflexivity |].
  unfold stringify_class. by rewrite kept_no_include.
Qed.

End StringifyFacts.

(** ** dotdict *)

Module DotDictFacts.
Import DotDict.

Lemma getitem_setitem (d : gmap string pyval) (k : string) (v : pyval) :
  getitem (setitem d k v) k = Ok v.
Proof. unfold getitem, setitem. by rewrite lookup_insert_eq. Qed.

Lemma getattr_plain (d : gmap string pyval) (k : string) :
  class_lookup k = None → getattr d k = Ok (dict_get d k).
Proof. intros Hk. unfold getattr. by rewrite Hk. Qed.

(** C3, as stated, fails at a key that names a method of [dict]: the read
    [d.keys] finds the method on the type and never reaches
    [__getattr__], so an unset ["keys"] does not read as [None], and a
    value stored under ["keys"] is not what [d.keys] gives back. *)
Lemma dotdict_keys_is_a_method :
  (∅ : gmap string pyval) !! "keys" = None
  ∧ getattr ∅ "keys" ≠ Ok PyNone
  ∧ getitem (setattr ∅ "keys" (PyInt 1)) "keys" = Ok (PyInt 1)
  ∧ getattr (setitem ∅ "keys" (PyInt 1)) "keys" ≠ Ok (PyInt 1).
Proof. by vm_compute. Qed.

(** C3, amended: for a key [k] that is not set in [d] and is not the name
    of an attribute of the type, [d.k] is [None] and [d[k]] raises
    [KeyError]; setting and deleting by attribute are setting and
    deleting by item, for every key [k']; what is set by attribute is
    read back by item, for every key, and what is set by item is read
    back by attribute, for every key that is not an attribute of the
    type, whether it was set before or not. *)
Theorem dotdict_access (d : gmap string pyval) (k k' : string) (v : pyval) :
  (d !! k = None → class_lookup k = None →
   getattr d k = Ok PyNone ∧ getitem d k = Raise (KeyError k))
  ∧ setattr d k' v = setitem d k' v
  ∧ delattr d k' = delitem d k'
  ∧ getitem (setattr d k' v) k' = Ok v
  ∧ (class_lookup k' = None → getattr (setitem d k' v) k' = Ok v).
Proof.
  split; [| repeat split].
  - intros Hunset Hplain. split.
    + rewrite getattr_plain by done. unfold dict_get. by rewrite Hunset.
    + unfold getitem. by rewrite Hunset.
  - apply getitem_setitem.
  - intros Hplain. rewrite getattr_plain by done. unfold dict_get, setitem.
    by rewrite lookup_insert_eq.
Qed.

Lemma dotdict_access_witness :
  getattr ∅ "height" = Ok PyNone
  ∧ getitem ∅ "height" = Raise (KeyError "height")
  ∧ getattr (setitem {["width" := PyInt 1]} "width" (PyInt 3)) "width"
    = Ok (PyInt 3).
Proof.
  destruct (dotdict_access ∅ "height" "height" PyNone) as [Hread _].
  destruct (dotdict_access {["width" := PyInt 1]} "width" "width" (PyInt 3))
    as (_ & _ & _ & _ & Hback).
  destruct Hread as [Hattr Hitem]; [reflexivity | reflexivity |].
  split; [exact Hattr |]. split; [exact Hitem |].
  apply Hback. reflexivity.
Defined.

End DotDictFacts.

(** ** split_2d *)

Module KeyGridFacts.
Import KeyGrid.

Section WithSplit.
Context {key : Type}.
Variable jr_split : key → nat → list key.
(** [jr.split(k, n)] gives [n] keys. *)
Hypothesis jr_split_length : ∀ k n, length (jr_split k n) = n.

Lemma split_2d_rows (k : key) (w h : nat) (row : list key) :
  row ∈ split_2d jr_split k w h → length row = h.
Proof.
  unfold split_2d, vmap. intros Hrow.
  apply list_elem_of_fmap in Hrow as (ki & -> & _).
  apply jr_split_length.
Qed.

Lemma split_2d_size (k : key) (w h : nat) :
  grid_size (split_2d jr_split k w h) = w * h.
Proof.
  unfold grid_size, split_2d, vmap. rewrite <- list_fmap_compose.
  rewrite (sum_list_fmap_same h).
  - by rewrite jr_split_length.
  - apply Forall_forall. intros ki _. apply jr_split_length.
Qed.

(** C9: the grid has [w] rows of [h] keys, [w * h] keys in all; the key
    at [i], [j] is the [j]-th of the [h] keys split from the [i]-th of
    the [w] keys split from the root; and the grid is a function of the
    root key and the two sizes. *)
Theorem split_2d_grid (k : key) (w h : nat) :
  length (split_2d jr_split k w h) = w
  ∧ (∀ row, row ∈ split_2d jr_split k w h → length row = h)
  ∧ grid_size (split_2d jr_split k w h) = w * h
  ∧ (∀ i j, i < w → j < h →
       ∃ ki kij, jr_split k w !! i = Some ki
                 ∧ jr_split ki h !! j = Some kij
                 ∧ split_2d jr_split k w h !! i ≫= (.!! j) = Some kij)
  ∧ (∀ k2 w2 h2, k2 = k → w2 = w → h2 = h →
       split_2d jr_split k2 w2 h2 = split_2d jr_split k w h).
Proof.
  split; [| split; [| split; [| split]]].
  - unfold split_2d, vmap. by rewrite length_fmap, jr_split_length.
  - apply split_2d_rows.
  - apply split_2d_size.
  - intros i j Hi Hj.
    destruct (lookup_lt_is_Some_2 (jr_split k w) i) as [ki Hki];
      [by rewrite jr_split_length |].
    destruct (lookup_lt_is_Some_2 (jr_split ki h) j) as [kij Hkij];
      [by rewrite jr_split_length |].
    exists ki, kij. repeat split; [done .. |].
    unfold split_2d, vmap. rewrite list_lookup_fmap, Hki. simpl. done.
  - by intros k2 w2 h2 -> -> ->.
Qed.

End WithSplit.

Lemma path_split_length (k : list nat) (n : nat) : length (path_split k n) = n.
Proof. unfold path_split. by rewrite length_fmap, length_seq. Qed.

Lemma split_2d_grid_witness :
  length (split_2d path_split [] 2 3) = 2
  ∧ grid_size (split_2d path_split [] 2 3) = 6
  ∧ split_2d path_split [] 2 3 !! 1 ≫= (.!! 2) = Some [1; 2].
Proof.
  pose proof (split_2d_grid path_split path_split_length [] 2 3)
    as (Hrows & _ & Hsize & _ & _).
  split; [exact Hrows | split; [exact Hsize | reflexivity]].
Defined.

End KeyGridFacts.

(** ** conditional_update *)

Module CondUpdateFacts.
Import CondUpdate.

Section AnyDtype.
Context `{Dtype A}.
Implicit Types (arr old xs cs vs : list A) (ps : list nat) (idx : index).

Lemma scatter_length arr ps xs : length (scatter arr ps xs) = length arr.
Proof.
  revert arr xs. induction ps as [|p ps IH]; intros arr [|x xs]; try done.
  simpl. by rewrite IH, length_insert.
Qed.

Lemma scatter_other arr ps xs (p : nat) :
  p ∉ ps → scatter arr ps xs !! p = arr !! p.
Proof.
  revert arr xs. induction ps as [|q ps IH]; intros arr [|x xs] Hp; try done.
  apply not_elem_of_cons in Hp as [Hne Hp]. simpl.
  rewrite IH by done. by apply list_lookup_insert_ne.
Qed.

Lemma scatter_at arr ps xs (j p : nat) (x : A) :
  NoDup ps →
  Forall (λ q, q < length arr) ps →
  ps !! j = Some p →
  xs !! j = Some x →
  scatter arr ps xs !! p = Some x.
Proof.
  revert arr xs j.
  induction ps as [|q ps IH]; intros arr [|x0 xs] j Hnodup Hrange Hp Hx;
    try done.
  apply NoDup_cons in Hnodup as [Hq Hnodup].
  apply Forall_cons in Hrange as [Hqlt Hrange].
  destruct j as [|j]; simpl in *.
  - injection Hp as ->. injection Hx as ->.
    rewrite scatter_other by done. by apply list_lookup_insert_eq.
  - apply (IH _ _ j); try done. by rewrite length_insert.
Qed.

Lemma blend_all_lookup cs old vs (j : nat) (c a v : A) :
  cs !! j = Some c → old !! j = Some a → vs !! j = Some v →
  blend_all cs old vs !! j = Some (blend c a v).
Proof.
  revert old vs j.
  induction cs as [|c0 cs IH]; intros [|a0 old] [|v0 vs] [|j] Hc Ha Hv;
    try done; simpl in *.
  - by injection Hc as ->; injection Ha as ->; injection Hv as ->.
  - by apply IH.
Qed.

Lemma gather_lookup arr idx old (j p : nat) (a : A) :
  gather arr idx = Some old →
  positions idx !! j = Some p →
  arr !! p = Some a →
  old !! j = Some a.
Proof.
  unfold gather. intros Hold Hp Ha.
  apply mapM_Some_1 in Hold.
  destruct (Forall2_lookup_l _ _ _ _ _ Hold Hp) as (a' & Ha' & Hpa).
  simpl in Hpa. congruence.
Qed.

Lemma gather_in_range arr idx :
  Forall (λ p, p < length arr) (positions idx) → is_Some (gather arr idx).
Proof.
  intros Hrange. unfold gather. apply mapM_is_Some_2.
  apply (Forall_impl _ _ _ Hrange). intros p Hp. simpl.
  by apply lookup_lt_is_Some_2.
Qed.

(** What [conditional_update] gives, for any dtype: a list as long as
    [arr], equal to [arr] off the positions of [idx], with the blend of
    the old element and [val] at each of them. *)
Lemma conditional_update_spec arr idx (val cond : operand A) :
  NoDup (positions idx) →
  Forall (λ p, p < length arr) (positions idx) →
  is_Some (broadcast idx cond) →
  is_Some (broadcast idx val) →
  ∃ out,
    conditional_update arr idx val cond = Some out
    ∧ length out = length arr
    ∧ (∀ p, p ∉ positions idx → out !! p = arr !! p)
    ∧ (∀ j p a c v,
         positions idx !! j = Some p → arr !! p = Some a →
         operand_at idx cond j = Some c → operand_at idx val j = Some v →
         out !! p = Some (blend c a v)).
Proof.
  intros Hnodup Hrange [cs Hcs] [vs Hvs].
  destruct (gather_in_range arr idx Hrange) as [old Hold].
  exists (scatter arr (positions idx) (blend_all cs old vs)).
  unfold conditional_update. rewrite Hold, Hcs, Hvs. simpl.
  split; [done |]. split; [apply scatter_length |].
  split; [intros p Hp; by apply scatter_other |].
  intros j p a c v Hp Ha Hc Hv.
  unfold operand_at in Hc, Hv. rewrite Hcs in Hc. rewrite Hvs in Hv.
  simpl in Hc, Hv.
  apply (scatter_at _ _ _ j); try done.
  apply blend_all_lookup; try done.
  by apply (gather_lookup arr idx old j p).
Qed.

End AnyDtype.

(** The two ends of the blend, in wrapping 32-bit arithmetic. *)
Lemma wrap32_small (z : Z) : in_int32 z → wrap32 z = z.
Proof.
  unfold in_int32, wrap32. intros Hz.
  rewrite Z.mod_small; lia.
Qed.

Lemma blend_int32_one (a v : Z) : in_int32 v → blend 1%Z a v = v.
Proof.
  intros Hv. unfold blend. cbn [dt_add dt_mul dt_sub dt_one int32_dtype].
  replace (1 - 1)%Z with 0%Z by lia.
  replace (wrap32 0) with 0%Z by reflexivity.
  rewrite Z.mul_0_l, Z.mul_1_l.
  replace (wrap32 0) with 0%Z by reflexivity.
  rewrite Z.add_0_l, (wrap32_small v) by done. by apply wrap32_small.
Qed.

Lemma blend_int32_zero (a v : Z) : in_int32 a → blend 0%Z a v = a.
Proof.
  intros Ha. unfold blend. cbn [dt_add dt_mul dt_sub dt_one int32_dtype].
  replace (1 - 0)%Z with 1%Z by lia.
  replace (wrap32 1) with 1%Z by reflexivity.
  rewrite Z.mul_0_l, Z.mul_1_l.
  replace (wrap32 0) with 0%Z by reflexivity.
  rewrite Z.add_0_r, (wrap32_small a) by done. by apply wrap32_small.
Qed.

(** C4, in a floating dtype at a value that is not finite: [0 * inf] is
    [nan], so with [cond = 1] and [arr[idx] = inf] the element written is
    [nan] and not [val], against the claim and against the docstring
    ("Update arr[idx] to val if cond is True"); and with [cond = 0] and
    [val = inf] it is [nan] and not the old element. *)
Lemma conditional_update_float_nan :
  conditional_update [infinity] (One 0) (Scalar 1%float) (Scalar 1%float)
    = Some [nan]
  ∧ conditional_update [infinity] (One 0) (Scalar 1%float) (Scalar 1%float)
    ≠ Some [1%float]
  ∧ conditional_update [1%float] (One 0) (Scalar infinity) (Scalar 0%float)
    = Some [nan]
  ∧ conditional_update [1%float] (One 0) (Scalar infinity) (Scalar 0%float)
    ≠ Some [1%float].
Proof.
  assert (∀ o : option (list float),
            match o with
            | Some [x] => PrimFloat.is_nan x
            | _ => false
            end = true → o ≠ Some [1%float]) as Hnan.
  { intros o Ho ->. vm_compute in Ho. discriminate. }
  split; [reflexivity |]. split; [by apply Hnan |].
  split; [reflexivity |]. by apply Hnan.
Qed.

(** X21: in a wrapping integer dtype (int32), for an index expression
    that selects distinct positions inside [arr]: the result is as long
    as [arr] and equal to it off the positions of [idx]; at a position of
    [idx] it holds [(1 - cond) * arr[idx] + cond * val] in the arithmetic
    of the dtype, with the elements of [cond] and [val] that meet that
    position; this is [val] where [cond] is 1 and the old element where
    [cond] is 0. *)
Theorem conditional_update_int32 (arr : list Z) (idx : index) (val cond : operand Z) :
  Forall in_int32 arr →
  NoDup (positions idx) →
  Forall (λ p, p < length arr) (positions idx) →
  is_Some (broadcast idx cond) →
  is_Some (broadcast idx val) →
  ∃ out,
    conditional_update arr idx val cond = Some out
    ∧ length out = length arr
    ∧ (∀ p, p ∉ positions idx → out !! p = arr !! p)
    ∧ (∀ j p a c v,
         positions idx !! j = Some p → arr !! p = Some a →
         operand_at idx cond j = Some c → operand_at idx val j = Some v →
         out !! p = Some (wrap32 (wrap32 (wrap32 (1 - c) * a) + wrap32 (c * v)))
         ∧ (c = 1%Z → in_int32 v → out !! p = Some v)
         ∧ (c = 0%Z → out !! p = Some a)).
Proof.
  intros Harr Hnodup Hrange Hcond Hval.
  destruct (conditional_update_spec arr idx val cond Hnodup Hrange Hcond Hval)
    as (out & Hout & Hlen & Hoff & Hon).
  exists out. repeat split; try done.
  - by apply (Hon j).
  - intros -> Hv. rewrite (Hon j p a 1%Z v) by done.
    by rewrite blend_int32_one.
  - intros ->. rewrite (Hon j p a 0%Z v) by done.
    rewrite blend_int32_zero; [done |].
    rewrite Forall_forall in Harr. apply Harr.
    by apply list_elem_of_lookup_2 with p.
Qed.

Lemma conditional_update_int32_witness :
  ∃ out,
    conditional_update [1; 2; 3]%Z (Many [0; 2]) (Scalar 9%Z) (Vector [1; 0]%Z)
      = Some out
    ∧ out !! 0 = Some 9%Z ∧ out !! 1 = Some 2%Z ∧ out !! 2 = Some 3%Z.
Proof.
  destruct (conditional_update_int32 [1; 2; 3]%Z (Many [0; 2]) (Scalar 9%Z)
              (Vector [1; 0]%Z))
    as (out & Hout & _ & Hoff & Hon).
  - repeat constructor; unfold in_int32; lia.
  - by apply (bool_decide_unpack _).
  - repeat constructor; simpl; lia.
  - by eexists.
  - by eexists.
  - exists out. split; [exact Hout |].
    split; [| split].
    + apply (Hon 0 0 1%Z 1%Z 9%Z); try reflexivity. unfold in_int32; lia.
    + apply Hoff. by apply (bool_decide_unpack _).
    + apply (Hon 1 2 3%Z 0%Z 9%Z); reflexivity.
Defined.

End CondUpdateFacts.

(** ** save_dna and load_dna *)

Module DnaFacts.
Import PyStr PyStrFacts Dna.

(** *** The suffix that [load_dna] adds *)

Lemma with_npy_suffix_absent (file : string) :
  endswith (lower file) ".npy" = false → with_npy_suffix file = file +:+ ".npy".
Proof. intros Hno. unfold with_npy_suffix. by rewrite Hno. Qed.

Lemma with_npy_suffix_present (file : string) :
  endswith (lower file) ".npy" = true → with_npy_suffix file = file.
Proof. intros Hyes. unfold with_npy_suffix. by rewrite Hyes. Qed.

Lemma endswith_lower_npy (file : string) :
  endswith (lower (file +:+ ".npy")) ".npy" = true.
Proof. rewrite lower_app. apply endswith_app. Qed.

Lemma with_npy_suffix_fixed (file : string) :
  with_npy_suffix (file +:+ ".npy") = file +:+ ".npy".
Proof. apply with_npy_suffix_present, endswith_lower_npy. Qed.

Lemma with_npy_suffix_ends (file : string) :
  endswith (lower (with_npy_suffix file)) ".npy" = true.
Proof.
  unfold with_npy_suffix.
  destruct (endswith (lower file) ".npy") eqn:Hends; simpl; [done |].
  apply endswith_lower_npy.
Qed.

(** *** The lines of the sidecar file *)

Lemma optional_line_truthy (label : string) (z : Z) :
  z ≠ 0%Z → optional_line label (Some z) = [label +:+ pretty z].
Proof.
  intros Hz. unfold optional_line, int_truthy.
  by destruct (Z.eqb_spec z 0).
Qed.

Lemma optional_line_falsy (label : string) (x : option Z) :
  int_truthy x = false → optional_line label x = [].
Proof. intros Hx. unfold optional_line. destruct x; by rewrite ?Hx. Qed.

Lemma optional_line_length (label : string) (x : option Z) :
  length (optional_line label x) = if int_truthy x then 1 else 0.
Proof.
  unfold optional_line. destruct x as [z|]; [| done].
  by destruct (int_truthy (Some z)).
Qed.

Lemma sidecar_lines_length (identifier : string) (config agent_logic mutator : pyobj)
    (env_h env_w : option Z) (author notes : string) :
  length (sidecar_lines identifier config agent_logic mutator env_h env_w
            author notes)
  = 6 + (if int_truthy env_h then 1 else 0) + (if int_truthy env_w then 1 else 0).
Proof.
  unfold sidecar_lines. rewrite !length_app, !optional_line_length. simpl. lia.
Qed.

(** *** Running [save_dna] *)

Section WithCodec.
Context {ndarray : Type}.
Variable npy_encode : ndarray → string.
Variable npy_decode : string → option ndarray.

Lemma save_dna_run (dna : ndarray) (configuration_name : string)
    (config agent_logic mutator : pyobj) (env_h env_w : option Z)
    (author notes out_dir : string) (w : world) :
  let identifier := configuration_name +:+ "_" +:+ pretty (clock w) in
  let out_file_path := out_dir +:+ identifier in
  can_write w (out_file_path +:+ ".npy") = true →
  can_write w (out_file_path +:+ ".txt") = true →
  save_dna npy_encode dna configuration_name config agent_logic mutator
    env_h env_w author notes out_dir w
  = (Returned out_file_path,
     saved w out_file_path (npy_encode dna)
       (join NL (sidecar_lines identifier config agent_logic mutator
                   env_h env_w author notes))).
Proof.
  intros identifier out_file_path Hnpy Htxt.
  subst identifier out_file_path.
  unfold save_dna, mbind, io_bind, time_ns, write_file, mret, io_ret.
  cbn [join clock can_write fs pkg].
  rewrite Hnpy. cbn [can_write with_file]. by rewrite Htxt.
Qed.

Lemma save_dna_returned (dna : ndarray) (configuration_name : string)
    (config agent_logic mutator : pyobj) (env_h env_w : option Z)
    (author notes out_dir : string) (w : world) (q : string) :
  (save_dna npy_encode dna configuration_name config agent_logic mutator
     env_h env_w author notes out_dir w).1 = Returned q →
  q = out_dir +:+ (configuration_name +:+ "_" +:+ pretty (clock w)).
Proof.
  unfold save_dna, mbind, io_bind, time_ns, write_file, mret, io_ret.
  cbn [join clock can_write fs pkg].
  destruct (can_write w _); [| by destruct (can_open w _)].
  cbn [can_write can_open with_file].
  destruct (can_write w _); [| by destruct (can_open w _)].
  cbn. congruence.
Qed.

Lemma npy_txt_distinct (out_file_path : string) :
  out_file_path +:+ ".txt" ≠ out_file_path +:+ ".npy".
Proof. intros Heq. by apply (inj (String.app out_file_path)) in Heq. Qed.

(** C6: the identifier is the configuration name, an underscore and the
    clock reading in decimal; the path is [out_dir] followed directly by
    the identifier; and that path, with no extension, is what [save_dna]
    returns, whenever it returns, which it does when both files can be
    written. *)
Theorem save_dna_path (dna : ndarray) (configuration_name : string)
    (config agent_logic mutator : pyobj) (env_h env_w : option Z)
    (author notes out_dir : string) (w : world) :
  let identifier := configuration_name +:+ "_" +:+ pretty (clock w) in
  let out_file_path := out_dir +:+ identifier in
  (∀ q, (save_dna npy_encode dna configuration_name config agent_logic mutator
           env_h env_w author notes out_dir w).1 = Returned q →
        q = out_file_path)
  ∧ (can_write w (out_file_path +:+ ".npy") = true →
     can_write w (out_file_path +:+ ".txt") = true →
     (save_dna npy_encode dna configuration_name config agent_logic mutator
        env_h env_w author notes out_dir w).1 = Returned out_file_path).
Proof.
  intros identifier out_file_path. split.
  - intros q. apply save_dna_returned.
  - intros Hnpy Htxt. by rewrite save_dna_run.
Qed.

(** C2, amended: the sidecar file holds the entries of [lines] joined by
    line feeds: ["dna: "] and the identifier, then [str(config)],
    [str(agent_logic)], [str(mutator)], then the height and the width,
    each only if truthy, then the author and the notes.  These are 6, 7
    or 8 entries, 8 when both sizes are truthy, and as many lines when no
    entry holds a line feed of its own. *)
Theorem save_dna_sidecar (dna : ndarray) (configuration_name : string)
    (config agent_logic mutator : pyobj) (env_h env_w : option Z)
    (author notes out_dir : string) (w : world) :
  let identifier := configuration_name +:+ "_" +:+ pretty (clock w) in
  let out_file_path := out_dir +:+ identifier in
  can_write w (out_file_path +:+ ".npy") = true →
  can_write w (out_file_path +:+ ".txt") = true →
  ∃ w' lines,
    save_dna npy_encode dna configuration_name config agent_logic mutator
      env_h env_w author notes out_dir w = (Returned out_file_path, w')
    ∧ lines = (["dna: " +:+ identifier; py_str config; py_str agent_logic;
                py_str mutator]
               ++ optional_line "env_h: " env_h
               ++ optional_line "env_w: " env_w
               ++ ["author: " +:+ author; "notes: " +:+ notes])%list
    ∧ fs w' !! (out_file_path +:+ ".txt") = Some (join NL lines)
    ∧ length lines
      = 6 + (if int_truthy env_h then 1 else 0)
          + (if int_truthy env_w then 1 else 0)
    ∧ (int_truthy env_h = true → int_truthy env_w = true → length lines = 8)
    ∧ (Forall (λ l, contains_char LF l = false) lines →
       split_LF (join NL lines) = lines).
Proof.
  intros identifier out_file_path Hnpy Htxt.
  eexists _, (sidecar_lines identifier config agent_logic mutator env_h env_w
                author notes).
  split; [by apply save_dna_run |].
  split; [reflexivity |].
  split; [unfold saved, with_file; cbn [fs]; apply lookup_insert_eq |].
  split; [apply sidecar_lines_length |].
  split.
  - intros Hh Hw. by rewrite sidecar_lines_length, Hh, Hw.
  - intros Hclean. by apply split_join.
Qed.

End WithCodec.

Section RoundTrip.
Context {ndarray : Type}.
Variable npy_encode : ndarray → string.
Variable npy_decode : string → option ndarray.
(** For the arrays the array format reads back as it wrote them. *)
Hypothesis npy_roundtrip : ∀ a, npy_decode (npy_encode a) = Some a.

(** X22: [save_dna] and [load_dna] agree on where the array is: if the
    format reads back what it wrote, then after a save that wrote its two
    files, loading the returned path with [".npy"] appended, from disk,
    returns the array that was saved.  The text file, written second,
    does not touch the array file, and the suffix step leaves the path
    alone. *)
Theorem save_load_roundtrip (dna : ndarray) (configuration_name : string)
    (config agent_logic mutator : pyobj) (env_h env_w : option Z)
    (author notes out_dir : string) (w : world) :
  let out_file_path :=
    out_dir +:+ (configuration_name +:+ "_" +:+ pretty (clock w)) in
  can_write w (out_file_path +:+ ".npy") = true →
  can_write w (out_file_path +:+ ".txt") = true →
  ∃ w',
    save_dna npy_encode dna configuration_name config agent_logic mutator
      env_h env_w author notes out_dir w = (Returned out_file_path, w')
    ∧ load_dna npy_decode (out_file_path +:+ ".npy") false w'
      = (Returned dna, w').
Proof.
  intros out_file_path Hnpy Htxt. eexists. split.
  - by apply save_dna_run.
  - unfold load_dna. rewrite with_npy_suffix_fixed.
    unfold mbind, io_bind, read_file, saved, with_file. cbn [fs].
    rewrite lookup_insert_ne by apply npy_txt_distinct.
    rewrite lookup_insert_eq. unfold jp_load.
    by rewrite npy_roundtrip.
Qed.

End RoundTrip.

Lemma substring_all (s : string) : String.substring 0 (String.length s) s = s.
Proof. induction s as [|a s IH]; [done |]. simpl. by rewrite IH. Qed.

Lemma raw_roundtrip (data : string) : raw_decode (raw_encode data) = Some data.
Proof.
  unfold raw_decode, raw_encode, magic.
  rewrite !app_cons, app_nil_l. simpl.
  rewrite Nat.sub_0_r, substring_all. by destruct data.
Qed.

Lemma save_dna_path_witness :
  (save_dna raw_encode "123" "test" (str_obj "C") (str_obj "L") (str_obj "M")
     (Some 10%Z) (Some 20%Z) "alice" "hi" "/tmp/" (empty_world 42)).1
  = Returned "/tmp/test_42".
Proof.
  apply (proj2 (save_dna_path raw_encode "123" "test" (str_obj "C")
                  (str_obj "L") (str_obj "M") (Some 10%Z) (Some 20%Z)
                  "alice" "hi" "/tmp/" (empty_world 42))).
  - reflexivity.
  - reflexivity.
Defined.

Lemma save_dna_sidecar_witness :
  ∃ w' lines,
    save_dna raw_encode "123" "test" (str_obj "C") (str_obj "L") (str_obj "M")
      (Some 10%Z) (Some 20%Z) "alice" "hi" "/tmp/" (empty_world 42)
    = (Returned "/tmp/test_42", w')
    ∧ lines = ["dna: test_42"; "C"; "L"; "M"; "env_h: 10"; "env_w: 20";
               "author: alice"; "notes: hi"]
    ∧ fs w' !! "/tmp/test_42.txt" = Some (join NL lines)
    ∧ split_LF (join NL lines) = lines.
Proof.
  destruct (save_dna_sidecar raw_encode "123" "test" (str_obj "C")
              (str_obj "L") (str_obj "M") (Some 10%Z) (Some 20%Z)
              "alice" "hi" "/tmp/" (empty_world 42))
    as (w' & lines & Hrun & Hlines & Hfile & _ & _ & Hsplit).
  - reflexivity.
  - reflexivity.
  - exists w', lines. split; [exact Hrun |]. split; [exact Hlines |].
    split; [exact Hfile |]. apply Hsplit. rewrite Hlines.
    by repeat constructor.
Defined.

Lemma save_load_roundtrip_witness :
  ∃ w',
    save_dna raw_encode "123" "test" (str_obj "C") (str_obj "L") (str_obj "M")
      (Some 10%Z) (Some 20%Z) "alice" "hi" "/tmp/" (empty_world 42)
    = (Returned "/tmp/test_42", w')
    ∧ load_dna raw_decode "/tmp/test_42.npy" false w' = (Returned "123", w').
Proof.
  apply (save_load_roundtrip raw_encode raw_decode raw_roundtrip "123" "test"
           (str_obj "C") (str_obj "L") (str_obj "M") (Some 10%Z) (Some 20%Z)
           "alice" "hi" "/tmp/" (empty_world 42)).
  - reflexivity.
  - reflexivity.
Defined.

(** C2, as stated, fails at the scenario the specification gives: the
    first line of the file is ["dna: test_42"], not the identifier
    ["test_42"], so the file is not the lines the claim lists; and with a
    line feed in the notes the file has nine lines, not eight. *)
Lemma save_dna_sidecar_first_line :
  let C := str_obj "C" in
  let L := str_obj "L" in
  let M := str_obj "M" in
  let w' := (save_dna raw_encode "123" "test" C L M (Some 10%Z) (Some 20%Z)
               "alice" "hi" "/tmp/" (empty_world 42)).2 in
  let w'' := (save_dna raw_encode "123" "test" C L M (Some 10%Z) (Some 20%Z)
                "alice" ("h" +:+ NL +:+ "i") "/tmp/" (empty_world 42)).2 in
  head (split_LF (default "" (fs w' !! "/tmp/test_42.txt"))) = Some "dna: test_42"
  ∧ fs w' !! "/tmp/test_42.txt"
    ≠ Some (join NL (spec_sidecar_lines "test_42" C L M (Some 10%Z) (Some 20%Z)
                       "alice" "hi"))
  ∧ length (split_LF (default "" (fs w'' !! "/tmp/test_42.txt"))) = 9.
Proof. by vm_compute. Qed.

(** The test of [load_dna] is the suffix test up to letter case: it holds
    exactly when the reference ends in some spelling of [".npy"]. *)
Lemma endswith_lower_iff (file suffix : string) :
  endswith (lower file) suffix = true
  ↔ ∃ stem ext, file = stem +:+ ext ∧ lower ext = suffix.
Proof.
  split.
  - induction file as [|a file IH]; rewrite endswith_unfold; intros Hends;
      apply orb_true_iff in Hends as [Hhere | Hlater].
    + apply bool_decide_eq_true in Hhere. by exists "", "".
    + done.
    + apply bool_decide_eq_true in Hhere. by exists "", (String a file).
    + destruct (IH Hlater) as (stem & ext & -> & Hext).
      by exists (String a stem), ext.
  - intros (stem & ext & -> & <-). rewrite lower_app. apply endswith_app.
Qed.

(** C7: a reference that does not end in [".npy"], whatever the case of
    its letters, gets [".npy"] appended; one that does is used as it is;
    so the step changes nothing when done twice.  It comes before the
    path is resolved: from disk [load_dna] reads the file at the
    reference so completed, and at no other path; from the package it
    reads the resource [biomakerca/dnalib/] followed by it. *)
Theorem with_npy_suffix_spec (file : string) :
  ((¬ ∃ stem ext, file = stem +:+ ext ∧ lower ext = ".npy") →
   with_npy_suffix file = file +:+ ".npy")
  ∧ ((∃ stem ext, file = stem +:+ ext ∧ lower ext = ".npy") →
     with_npy_suffix file = file)
  ∧ with_npy_suffix (with_npy_suffix file) = with_npy_suffix file
  ∧ (∀ (ndarray : Type) (npy_decode : string → option ndarray) (w : world),
       let path := with_npy_suffix file in
       let resource_path := "biomakerca/dnalib/" +:+ path in
       load_dna npy_decode file false w
       = (match fs w !! path with
          | Some content =>
              match npy_decode content with
              | Some a => Returned a
              | None => Raised (ValueError path)
              end
          | None => Raised (FileNotFoundError path)
          end, w)
       ∧ load_dna npy_decode file true w
         = (match pkg w !! resource_path with
            | Some content =>
                match npy_decode content with
                | Some a => Returned a
                | None => Raised (ValueError resource_path)
                end
            | None => Raised (ResourceNotFound resource_path)
            end, w)).
Proof.
  split; [| split; [| split]].
  - intros Hno. apply with_npy_suffix_absent.
    apply not_true_is_false. by rewrite endswith_lower_iff.
  - intros Hyes. by apply with_npy_suffix_present, endswith_lower_iff.
  - apply with_npy_suffix_present, with_npy_suffix_ends.
  - intros ndarray npy_decode w path resource_path.
    assert (join "/" ["biomakerca"; "dnalib"; path] = resource_path)
      as Hjoin by reflexivity.
    unfold load_dna, mbind, io_bind, read_file, resource_stream, jp_load,
      mret, io_ret, raise.
    fold path. rewrite Hjoin. split.
    + destruct (fs w !! path) as [content|]; [| done].
      by destruct (npy_decode content).
    + destruct (pkg w !! resource_path) as [content|]; [| done].
      by destruct (npy_decode content).
Qed.

Lemma with_npy_suffix_spec_witness :
  with_npy_suffix "genome" = "genome.npy"
  ∧ with_npy_suffix "Genome.NPY" = "Genome.NPY".
Proof.
  split.
  - apply (proj1 (with_npy_suffix_spec "genome")).
    rewrite <- endswith_lower_iff. by vm_compute.
  - apply (proj1 (proj2 (with_npy_suffix_spec "Genome.NPY"))).
    by exists "Genome", ".NPY".
Defined.

End DnaFacts.

(** * Part III: further properties of the helpers *)

(** ** dotdict: deleting, shadowing, and [None] *)

Module DotDictLaws.
Import DotDict.

(** X1: deleting by attribute a key that is not set raises [KeyError],
    as [del d[k]] does; deleting a key that is set removes that key and
    no other: afterwards [d[k]] raises, and every other key reads as
    before. *)
Theorem delattr_effect (d : gmap string pyval) (k : string) :
  (d !! k = None → delattr d k = Raise (KeyError k))
  ∧ (∀ v, d !! k = Some v →
       ∃ d', delattr d k = Ok d'
             ∧ getitem d' k = Raise (KeyError k)
             ∧ (∀ k', k' ≠ k → getitem d' k' = getitem d k')).
Proof.
  split.
  - intros Hunset. unfold delattr, delitem. by rewrite Hunset.
  - intros v Hset. exists (delete k d). unfold delattr, delitem, getitem.
    rewrite Hset. split; [done |]. split.
    + by rewrite lookup_delete_eq.
    + intros k' Hne. by rewrite lookup_delete_ne.
Qed.

Lemma delattr_effect_witness :
  delattr ∅ "height" = Raise (KeyError "height")
  ∧ ∃ d', delattr (setattr ∅ "height" (PyInt 3)) "height" = Ok d'
          ∧ getitem d' "height" = Raise (KeyError "height").
Proof.
  split.
  - apply (proj1 (delattr_effect ∅ "height")). reflexivity.
  - destruct (proj2 (delattr_effect (setattr ∅ "height" (PyInt 3)) "height")
                (PyInt 3)) as (d' & Hdel & Hgone & _).
    + reflexivity.
    + by exists d'.
Defined.

(** X2: an attribute read cannot tell a key that holds [None] from a key
    that is not set; an item read can. *)
Theorem getattr_none_is_missing (d : gmap string pyval) (k : string) :
  getattr (setitem d k PyNone) k = getattr (delete k d) k
  ∧ getitem (setitem d k PyNone) k = Ok PyNone
  ∧ getitem (delete k d) k = Raise (KeyError k).
Proof.
  unfold getattr, getitem, dict_get, setitem.
  rewrite lookup_insert_eq, lookup_delete_eq.
  by destruct (class_lookup k).
Qed.

(** X3: a name that the type defines shadows the key of that name: the
    attribute read gives the attribute of the type whatever the mapping
    holds, so a value stored under that name, by either syntax, is only
    reachable by item. *)
Theorem class_attr_shadows (d : gmap string pyval) (k : string) (a v : pyval) :
  class_lookup k = Some a →
  getattr d k = Ok a
  ∧ getattr (setattr d k v) k = Ok a
  ∧ getitem (setattr d k v) k = Ok v.
Proof.
  intros Hclass. unfold getattr. rewrite Hclass.
  repeat split. unfold getitem, setattr, setitem. by rewrite lookup_insert_eq.
Qed.

Lemma class_attr_shadows_witness :
  getattr ∅ "items" = Ok (PyClassAttr "items")
  ∧ getattr (setattr ∅ "items" (PyInt 7)) "items" = Ok (PyClassAttr "items")
  ∧ getitem (setattr ∅ "items" (PyInt 7)) "items" = Ok (PyInt 7).
Proof.
  apply (class_attr_shadows ∅ "items" (PyClassAttr "items") (PyInt 7)).
  reflexivity.
Defined.

(** X4: setting by attribute touches one key only: every other key reads
    as before, by item and by attribute, and of two writes to the same
    key the later one stays. *)
Theorem setattr_frame (d : gmap string pyval) (k k' : string) (v v' : pyval) :
  k' ≠ k →
  getitem (setattr d k v) k' = getitem d k'
  ∧ getattr (setattr d k v) k' = getattr d k'
  ∧ setattr (setattr d k v) k v' = setattr d k v'.
Proof.
  intros Hne. unfold getattr, getitem, dict_get, setattr, setitem.
  rewrite lookup_insert_ne by done. repeat split.
  apply insert_insert_eq.
Qed.

Lemma setattr_frame_witness :
  getitem (setattr (setattr ∅ "w" (PyInt 1)) "h" (PyInt 2)) "w" = Ok (PyInt 1)
  ∧ getattr (setattr (setattr ∅ "w" (PyInt 1)) "h" (PyInt 2)) "w" = Ok (PyInt 1).
Proof.
  destruct (setattr_frame (setattr ∅ "w" (PyInt 1)) "h" "w" (PyInt 2) (PyInt 2))
    as (Hitem & Hattr & _).
  - discriminate.
  - split; [rewrite Hitem | rewrite Hattr]; reflexivity.
Defined.

End DotDictLaws.

(** ** vmap2: maps over a grid *)

Module KeyGridLaws.
Import KeyGrid.

(** X6: [vmap2 f] keeps the shape of a grid and applies [f] at every
    place: as many rows, rows as long, the entry at [i], [j] is [f] of
    the entry there; two such maps in a row are the map of the
    composition. *)
Theorem vmap2_pointwise {A B C : Type} (f : A → B) (g : B → C)
    (grid : list (list A)) :
  length (vmap2 f grid) = length grid
  ∧ (∀ i, length <$> vmap2 f grid !! i = length <$> grid !! i)
  ∧ (∀ i j, vmap2 f grid !! i ≫= (.!! j) = f <$> (grid !! i ≫= (.!! j)))
  ∧ vmap2 g (vmap2 f grid) = vmap2 (g ∘ f) grid.
Proof.
  unfold vmap2, vmap. split; [apply length_fmap |]. split; [| split].
  - intros i. rewrite list_lookup_fmap.
    destruct (grid !! i) as [row|]; simpl; [| done]. by rewrite length_fmap.
  - intros i j. rewrite list_lookup_fmap.
    destruct (grid !! i) as [row|]; simpl; [| done].
    apply list_lookup_fmap.
  - rewrite <- list_fmap_compose. apply list_fmap_ext. intros _ row _.
    simpl. by rewrite <- list_fmap_compose.
Qed.

End KeyGridLaws.

(** ** conditional_update: frame, the two ends, and independent updates *)

Module CondUpdateLaws.
Import CondUpdate CondUpdateFacts.

Lemma broadcast_length {A : Type} (idx : index) (x : operand A) (l : list A) :
  broadcast idx x = Some l → length l = length (positions idx).
Proof.
  destruct idx as [p|ps], x as [a|xs]; simpl; try done.
  - by intros [= <-].
  - intros [= <-]. apply length_replicate.
  - destruct (decide (length xs = length ps)); [by intros [= <-] |].
    destruct xs as [|a [|b xs]]; try done.
    intros [= <-]. apply length_replicate.
Qed.

Lemma gather_Forall2 {A : Type} (arr old : list A) (idx : index) :
  gather arr idx = Some old →
  Forall2 (λ p a, arr !! p = Some a) (positions idx) old.
Proof. unfold gather. apply mapM_Some_1. Qed.

Lemma gather_length {A : Type} (arr old : list A) (idx : index) :
  gather arr idx = Some old → length old = length (positions idx).
Proof. intros Hold. symmetry. by apply (length_mapM _ _ _ Hold). Qed.

Lemma gather_elements {A : Type} (arr old : list A) (idx : index) (P : A → Prop) :
  Forall P arr → gather arr idx = Some old → Forall P old.
Proof.
  intros Harr Hold. apply gather_Forall2 in Hold.
  rewrite Forall_forall in Harr.
  induction Hold as [|p a ps old Hpa _ IH]; constructor; [| done].
  apply Harr. by apply list_elem_of_lookup_2 with p.
Qed.

(** Writing back what is there changes nothing. *)
Lemma scatter_same {A : Type} (arr old : list A) (ps : list nat) :
  Forall2 (λ p a, arr !! p = Some a) ps old → scatter arr ps old = arr.
Proof.
  intros Hold. induction Hold as [|p a ps old Hpa _ IH]; [done |].
  simpl. by rewrite list_insert_id.
Qed.

Lemma scatter_insert {A : Type} (arr xs : list A) (ps : list nat) (p : nat) (x : A) :
  p ∉ ps → scatter (<[p := x]> arr) ps xs = <[p := x]> (scatter arr ps xs).
Proof.
  revert arr xs. induction ps as [|q ps IH]; intros arr [|y xs] Hp; try done.
  apply not_elem_of_cons in Hp as [Hne Hp]. simpl.
  rewrite (list_insert_insert_ne arr q p) by congruence. by apply IH.
Qed.

Lemma scatter_swap {A : Type} (arr xs ys : list A) (ps qs : list nat) :
  (∀ p, p ∈ ps → p ∉ qs) →
  scatter (scatter arr ps xs) qs ys = scatter (scatter arr qs ys) ps xs.
Proof.
  revert arr xs. induction ps as [|p ps IH]; intros arr [|x xs] Hapart; try done.
  simpl. rewrite IH.
  - rewrite scatter_insert; [done |]. apply Hapart. left.
  - intros p' Hp'. apply Hapart. by right.
Qed.

Lemma gather_scatter_apart {A : Type} (arr xs : list A) (ps : list nat) (idx : index) :
  (∀ p, p ∈ positions idx → p ∉ ps) →
  gather (scatter arr ps xs) idx = gather arr idx.
Proof.
  intros Hapart. unfold gather. apply Forall_mapM_ext, Forall_forall.
  intros p Hp. apply scatter_other. by apply Hapart.
Qed.

Lemma scatter_replicate {A : Type} (arr : list A) (ps : list nat) (x : A) (p : nat) :
  Forall (λ q, q < length arr) ps →
  p ∈ ps →
  scatter arr ps (replicate (length ps) x) !! p = Some x.
Proof.
  revert arr. induction ps as [|q ps IH]; intros arr Hrange Hp.
  - by apply elem_of_nil in Hp.
  - apply Forall_cons in Hrange as [Hq Hrange]. simpl.
    destruct (decide (p ∈ ps)) as [Hin | Hout].
    + apply IH; [| done]. by rewrite length_insert.
    + apply elem_of_cons in Hp as [-> | Hp]; [| done].
      rewrite scatter_other by done. by apply list_lookup_insert_eq.
Qed.

Lemma blend_all_zero (old vs : list Z) :
  Forall in_int32 old → length vs = length old →
  blend_all (replicate (length old) 0%Z) old vs = old.
Proof.
  intros Hold. revert vs.
  induction Hold as [|a old Ha _ IH]; intros [|v vs] Hlen; try done.
  cbn [length replicate blend_all]. rewrite blend_int32_zero by done.
  f_equal. apply IH. simpl in Hlen. lia.
Qed.

Lemma blend_all_one (old : list Z) (v : Z) :
  in_int32 v →
  blend_all (replicate (length old) 1%Z) old (replicate (length old) v)
  = replicate (length old) v.
Proof.
  intros Hv. induction old as [|a old IH]; [done |].
  cbn [length replicate blend_all]. rewrite blend_int32_one by done.
  by rewrite IH.
Qed.

Section AnyDtype.
Context `{Dtype A}.

(** X7: in every dtype, floating ones too, whatever [conditional_update]
    returns is as long as [arr] and agrees with [arr] at every position
    that [idx] does not select, also when [idx] names a position more than
    once. *)
Theorem conditional_update_frame (arr out : list A) (idx : index)
    (val cond : operand A) :
  conditional_update arr idx val cond = Some out →
  length out = length arr
  ∧ (∀ p, p ∉ positions idx → out !! p = arr !! p).
Proof.
  unfold conditional_update. intros Hout.
  destruct (gather arr idx) as [old|] eqn:Hold; [| done].
  destruct (broadcast idx cond) as [cs|]; [| done].
  destruct (broadcast idx val) as [vs|]; [| done].
  injection Hout as <-.
  split; [apply scatter_length |].
  intros p Hp. by apply scatter_other.
Qed.

(** X10: two updates whose index expressions select no common position
    can be made in either order: the two orders give the same array, or
    both fail. *)
Theorem conditional_update_independent (arr : list A) (idx1 idx2 : index)
    (val1 cond1 val2 cond2 : operand A) :
  (∀ p, p ∈ positions idx1 → p ∉ positions idx2) →
  conditional_update arr idx1 val1 cond1
    ≫= (λ arr1, conditional_update arr1 idx2 val2 cond2)
  = conditional_update arr idx2 val2 cond2
      ≫= (λ arr2, conditional_update arr2 idx1 val1 cond1).
Proof.
  intros Hapart.
  assert (∀ p, p ∈ positions idx2 → p ∉ positions idx1) as Hapart'
    by (intros p H2 H1; by apply (Hapart p)).
  unfold conditional_update.
  destruct (gather arr idx1) as [old1|] eqn:Hold1;
    destruct (broadcast idx1 cond1) as [cs1|] eqn:Hcs1;
    destruct (broadcast idx1 val1) as [vs1|] eqn:Hvs1;
    destruct (gather arr idx2) as [old2|] eqn:Hold2;
    destruct (broadcast idx2 cond2) as [cs2|] eqn:Hcs2;
    destruct (broadcast idx2 val2) as [vs2|] eqn:Hvs2;
    simpl;
    rewrite ?gather_scatter_apart by done;
    rewrite ?Hold1, ?Hold2, ?Hcs1, ?Hcs2, ?Hvs1, ?Hvs2; simpl; try done.
  f_equal. by apply scatter_swap.
Qed.

End AnyDtype.

Lemma conditional_update_frame_witness :
  ∃ out,
    conditional_update [1%float; infinity] (Many [1; 1]) (Scalar 2%float)
      (Scalar 1%float) = Some out
    ∧ length out = 2 ∧ out !! 0 = Some 1%float.
Proof.
  assert (∃ out, conditional_update [1%float; infinity] (Many [1; 1])
                   (Scalar 2%float) (Scalar 1%float) = Some out)
    as [out Hout] by (by eexists).
  exists out. split; [exact Hout |].
  destruct (conditional_update_frame _ out _ _ _ Hout) as (Hlen & Hoff).
  split; [exact Hlen |]. apply Hoff. by apply (bool_decide_unpack _).
Defined.

Lemma conditional_update_independent_witness :
  conditional_update [1; 2; 3]%Z (One 0) (Scalar 7%Z) (Scalar 1%Z)
    ≫= (λ arr1, conditional_update arr1 (Many [1; 2]) (Scalar 9%Z) (Vector [0; 1]%Z))
  = conditional_update [1; 2; 3]%Z (Many [1; 2]) (Scalar 9%Z) (Vector [0; 1]%Z)
      ≫= (λ arr2, conditional_update arr2 (One 0) (Scalar 7%Z) (Scalar 1%Z)).
Proof.
  apply (conditional_update_independent [1; 2; 3]%Z (One 0) (Many [1; 2])).
  intros p Hp. apply list_elem_of_singleton in Hp as ->.
  by apply (bool_decide_unpack _).
Defined.

(** X8: in int32, with [cond] 0 the update returns [arr] itself, also
    when [idx] names a position more than once. *)
Theorem conditional_update_cond_zero (arr : list Z) (idx : index) (val : operand Z) :
  Forall in_int32 arr →
  Forall (λ p, p < length arr) (positions idx) →
  is_Some (broadcast idx val) →
  conditional_update arr idx val (Scalar 0%Z) = Some arr.
Proof.
  intros Harr Hrange [vs Hvs].
  destruct (gather_in_range arr idx Hrange) as [old Hold].
  assert (broadcast idx (Scalar 0%Z) = Some (replicate (length old) 0%Z)) as Hcs.
  { rewrite (gather_length arr old idx Hold). by destruct idx. }
  unfold conditional_update. rewrite Hold, Hcs, Hvs. simpl. f_equal.
  rewrite blend_all_zero.
  - apply scatter_same. by apply gather_Forall2.
  - by apply (gather_elements arr old idx).
  - rewrite (broadcast_length idx val vs Hvs). symmetry.
    by apply (gather_length arr).
Qed.

Lemma conditional_update_cond_zero_witness :
  conditional_update [1; 2; 3]%Z (Many [2; 0; 2]) (Vector [7; 8; 9]%Z) (Scalar 0%Z)
  = Some [1; 2; 3]%Z.
Proof.
  apply conditional_update_cond_zero.
  - repeat constructor; unfold in_int32; lia.
  - repeat constructor; simpl; lia.
  - by eexists.
Defined.

(** X9: in int32, with [cond] 1 and a scalar [val] the update writes
    [val] at every position that [idx] selects and leaves the rest. *)
Theorem conditional_update_cond_one (arr : list Z) (idx : index) (v : Z) :
  in_int32 v →
  Forall (λ p, p < length arr) (positions idx) →
  ∃ out,
    conditional_update arr idx (Scalar v) (Scalar 1%Z) = Some out
    ∧ ∀ p, out !! p = if decide (p ∈ positions idx) then Some v else arr !! p.
Proof.
  intros Hv Hrange.
  destruct (gather_in_range arr idx Hrange) as [old Hold].
  pose proof (gather_length arr old idx Hold) as Hlen.
  assert (∀ x : Z, broadcast idx (Scalar x) = Some (replicate (length old) x))
    as Hscalar.
  { intros x. rewrite Hlen. by destruct idx. }
  eexists. unfold conditional_update. rewrite Hold, !Hscalar. simpl.
  split; [reflexivity |].
  intros p. rewrite blend_all_one by done. rewrite Hlen.
  destruct (decide (p ∈ positions idx)) as [Hin | Hout].
  - by apply scatter_replicate.
  - by apply scatter_other.
Qed.

Lemma conditional_update_cond_one_witness :
  ∃ out,
    conditional_update [1; 2; 3]%Z (Many [2; 0]) (Scalar 9%Z) (Scalar 1%Z) = Some out
    ∧ out !! 0 = Some 9%Z ∧ out !! 1 = Some 2%Z.
Proof.
  destruct (conditional_update_cond_one [1; 2; 3]%Z (Many [2; 0]) 9%Z)
    as (out & Hout & Hat).
  - unfold in_int32; lia.
  - repeat constructor; simpl; lia.
  - exists out. split; [exact Hout |]. split; rewrite Hat; reflexivity.
Defined.

End CondUpdateLaws.

(** ** stringify_class: what the two lists select *)

Module StringifyLaws.
Import PyStr PyStrFacts Stringify StringifyFacts.

Lemma kept_include (inst : instance) (exclude_list include_list : list string) :
  include_list ≠ [] →
  kept inst exclude_list (Some include_list)
  = filter (λ item, item.1 ∈ include_list) (vars inst).
Proof.
  intros Hne. unfold kept. apply list_filter_iff. intros item.
  rewrite keep_by_name.
  assert (truthy (Some include_list) = true) as -> by by destruct include_list.
  simpl. unfold name_in. by rewrite bool_decide_eq_true.
Qed.

Lemma filter_none {A : Type} (P : A → Prop) `{∀ x, Decision (P x)} (l : list A) :
  Forall (λ x, ¬ P x) l → filter P l = [].
Proof.
  intros Hnone. induction Hnone as [|x l Hx _ IH]; [done |].
  by rewrite filter_cons_False.
Qed.

(** X11: with a non-empty inclusion list the output holds the entries of
    exactly the attributes named in it, in the order of the instance;
    the exclusion list plays no part, so a name on both lists is shown. *)
Theorem stringify_class_include (inst : instance)
    (exclude_list include_list : list string) :
  include_list ≠ [] →
  stringify_class inst exclude_list (Some include_list)
  = type_name inst +:+ ": {"
    +:+ join ", " (entry <$> filter (λ item, item.1 ∈ include_list) (vars inst))
    +:+ "}"
  ∧ stringify_class inst exclude_list (Some include_list)
    = stringify_class inst [] (Some include_list).
Proof.
  intros Hne. unfold stringify_class. by rewrite !kept_include.
Qed.

Lemma stringify_class_include_witness :
  stringify_class
    {| type_name := "Env"; vars := [("w", str_obj "3"); ("h", str_obj "4")] |}
    ["h"] (Some ["h"])
  = "Env: {h: 4}".
Proof.
  rewrite (proj1 (stringify_class_include
                    {| type_name := "Env";
                       vars := [("w", str_obj "3"); ("h", str_obj "4")] |}
                    ["h"] ["h"] ltac:(discriminate))).
  reflexivity.
Defined.

(** X12: when the lists leave no attribute, the output is the type name
    with empty braces: so it is for an instance without attributes, for
    one whose attributes are all excluded, and for a non-empty inclusion
    list that names none of them (a name that is not an attribute is no
    error). *)
Theorem stringify_class_nothing_kept (inst : instance)
    (exclude_list include_list : list string) :
  (Forall (λ item, item.1 ∈ exclude_list) (vars inst) →
   stringify_class inst exclude_list None = type_name inst +:+ ": {}")
  ∧ (include_list ≠ [] →
     Forall (λ item, item.1 ∉ include_list) (vars inst) →
     stringify_class inst exclude_list (Some include_list)
     = type_name inst +:+ ": {}").
Proof.
  split.
  - intros Hall. unfold stringify_class.
    rewrite kept_no_include by done.
    rewrite filter_none; [done |].
    apply (Forall_impl _ _ _ Hall). intros item Hin Hout. done.
  - intros Hne Hnone. unfold stringify_class.
    rewrite kept_include by done.
    by rewrite filter_none.
Qed.

Lemma stringify_class_nothing_kept_witness :
  stringify_class {| type_name := "Env"; vars := [("w", str_obj "3")] |}
    ["w"] None = "Env: {}"
  ∧ stringify_class {| type_name := "Env"; vars := [("w", str_obj "3")] |}
      ["w"] (Some ["width"]) = "Env: {}".
Proof.
  destruct (stringify_class_nothing_kept
              {| type_name := "Env"; vars := [("w", str_obj "3")] |}
              ["w"] ["width"]) as [Hexcluded Hunnamed].
  split.
  - apply Hexcluded. repeat constructor.
  - apply Hunnamed; [discriminate |].
    repeat constructor. by apply (bool_decide_unpack _).
Defined.

End StringifyLaws.

(** ** save_dna and load_dna: failures, frame, repeated saves *)

Module DnaLaws.
Import PyStr PyStrFacts Dna DnaFacts.

Lemma length_app (s t : string) :
  String.length (s +:+ t) = String.length s + String.length t.
Proof.
  induction s as [|a s IH]; [done |]. rewrite app_cons. simpl. by rewrite IH.
Qed.








Section WithCodec.
Context {ndarray : Type}.
Variable npy_encode : ndarray → string.
Variable npy_decode : string → option ndarray.

(** X13: when the array file is written and the text file is not,
    [save_dna] raises the error of the second block and the array file
    stays on disk: nothing is rolled back.  If it was [open] that failed,
    the text path is as it was; if the writing failed after [open], the
    text file holds the part of the lines that was written. *)
Theorem save_dna_sidecar_refused (dna : ndarray) (configuration_name : string)
    (config agent_logic mutator : pyobj) (env_h env_w : option Z)
    (author notes out_dir : string) (w : world) :
  let identifier := configuration_name +:+ "_" +:+ pretty (clock w) in
  let out_file_path := out_dir +:+ identifier in
  let text := join NL (sidecar_lines identifier config agent_logic mutator
                         env_h env_w author notes) in
  can_write w (out_file_path +:+ ".npy") = true →
  can_write w (out_file_path +:+ ".txt") = false →
  ∃ e w',
    save_dna npy_encode dna configuration_name config agent_logic mutator
      env_h env_w author notes out_dir w = (Raised e, w')
    ∧ fs w' !! (out_file_path +:+ ".npy") = Some (npy_encode dna)
    ∧ (can_open w (out_file_path +:+ ".txt") = false →
       e = OSError (out_file_path +:+ ".txt")
       ∧ fs w' !! (out_file_path +:+ ".txt") = fs w !! (out_file_path +:+ ".txt"))
    ∧ (can_open w (out_file_path +:+ ".txt") = true →
       e = WriteError (out_file_path +:+ ".txt")
       ∧ fs w' !! (out_file_path +:+ ".txt")
         = Some (String.substring 0 (room w (out_file_path +:+ ".txt")) text)).
Proof.
  intros identifier out_file_path text Hnpy Htxt.
  subst identifier out_file_path text.
  unfold save_dna, mbind, io_bind, time_ns, write_file, mret, io_ret.
  cbn [join clock can_write fs pkg].
  rewrite Hnpy. cbn [can_write can_open room with_file]. rewrite Htxt.
  destruct (can_open w _) eqn:Hopen; eexists _, _;
    (split; [reflexivity |]); unfold with_file; cbn [fs];
    (split; [| split]); try done.
  - rewrite lookup_insert_ne by apply npy_txt_distinct.
    apply lookup_insert_eq.
  - intros _. split; [done |]. apply lookup_insert_eq.
  - apply lookup_insert_eq.
  - intros _. split; [done |]. apply lookup_insert_ne.
    apply not_eq_sym, npy_txt_distinct.
Qed.

(** X14: when the array file is not written, [save_dna] raises that
    error and goes no further: no text file is written and every other
    file is as before.  If it was [open] that failed, the world is as it
    was; if the writing failed after [open], the array path holds the
    part of the array file that was written. *)
Theorem save_dna_refused (dna : ndarray) (configuration_name : string)
    (config agent_logic mutator : pyobj) (env_h env_w : option Z)
    (author notes out_dir : string) (w : world) :
  let out_file_path :=
    out_dir +:+ (configuration_name +:+ "_" +:+ pretty (clock w)) in
  can_write w (out_file_path +:+ ".npy") = false →
  ∃ e w',
    save_dna npy_encode dna configuration_name config agent_logic mutator
      env_h env_w author notes out_dir w = (Raised e, w')
    ∧ (∀ path, path ≠ out_file_path +:+ ".npy" → fs w' !! path = fs w !! path)
    ∧ (can_open w (out_file_path +:+ ".npy") = false →
       e = OSError (out_file_path +:+ ".npy") ∧ w' = w)
    ∧ (can_open w (out_file_path +:+ ".npy") = true →
       e = WriteError (out_file_path +:+ ".npy")
       ∧ fs w' !! (out_file_path +:+ ".npy")
         = Some (String.substring 0 (room w (out_file_path +:+ ".npy"))
                   (npy_encode dna))).
Proof.
  intros out_file_path Hnpy. subst out_file_path.
  unfold save_dna, mbind, io_bind, time_ns, write_file, mret, io_ret.
  cbn [join clock can_write fs pkg]. rewrite Hnpy.
  destruct (can_open w _) eqn:Hopen; eexists _, _;
    (split; [reflexivity |]); unfold with_file; cbn [fs];
    (split; [| split]); try done.
  - intros path Hpath. by apply lookup_insert_ne.
  - intros _. split; [done |]. apply lookup_insert_eq.
Qed.

(** X15: whatever happens, [save_dna] touches no file on disk but its
    own two. *)
Theorem save_dna_frame (dna : ndarray) (configuration_name : string)
    (config agent_logic mutator : pyobj) (env_h env_w : option Z)
    (author notes out_dir : string) (w : world) :
  let out_file_path :=
    out_dir +:+ (configuration_name +:+ "_" +:+ pretty (clock w)) in
  let w' := (save_dna npy_encode dna configuration_name config agent_logic
               mutator env_h env_w author notes out_dir w).2 in
  ∀ path, path ≠ out_file_path +:+ ".npy" → path ≠ out_file_path +:+ ".txt" →
          fs w' !! path = fs w !! path.
Proof.
  intros out_file_path w' path Hnpy Htxt. subst out_file_path w'.
  unfold save_dna, mbind, io_bind, time_ns, write_file, mret, io_ret.
  cbn [join clock can_write fs pkg].
  destruct (can_write w _); [| destruct (can_open w _)];
    unfold with_file; cbn [can_write can_open room fs snd];
    [destruct (can_write w _); [| destruct (can_open w _)] | |];
    cbn [fs snd]; by rewrite ?lookup_insert_ne.
Qed.

(** X17: [load_dna] only reads: whether it returns or raises, from the
    package or from disk, the world is as before. *)
Theorem load_dna_reads_only (file : string) (load_from_this_package : bool)
    (w : world) :
  (load_dna npy_decode file load_from_this_package w).2 = w.
Proof.
  unfold load_dna, mbind, io_bind, resource_stream, read_file, jp_load,
    mret, io_ret, raise.
  destruct load_from_this_package.
  - destruct (pkg w !! _) as [content|]; [| done].
    by destruct (npy_decode content).
  - destruct (fs w !! _) as [content|]; [| done].
    by destruct (npy_decode content).
Qed.

(** X18: with [load_from_this_package] set, the reference is looked up
    under [biomakerca/dnalib/] in the package, with [".npy"] added if it
    was missing, and the files on disk are not consulted: a missing
    resource is an error even when a file of that name exists, and two
    worlds with the same package give the same result. *)
Theorem load_dna_from_package (file : string) (w : world) :
  let resource_path := "biomakerca/dnalib/" +:+ with_npy_suffix file in
  (pkg w !! resource_path = None →
   load_dna npy_decode file true w = (Raised (ResourceNotFound resource_path), w))
  ∧ (∀ content a,
       pkg w !! resource_path = Some content → npy_decode content = Some a →
       load_dna npy_decode file true w = (Returned a, w))
  ∧ (∀ w2, pkg w2 = pkg w →
       (load_dna npy_decode file true w2).1 = (load_dna npy_decode file true w).1).
Proof.
  intros resource_path.
  assert (join "/" ["biomakerca"; "dnalib"; with_npy_suffix file] = resource_path)
    as Hpath by reflexivity.
  unfold load_dna, mbind, io_bind, resource_stream, jp_load, mret, io_ret, raise.
  rewrite Hpath. split; [| split].
  - by intros ->.
  - by intros content a -> ->.
  - intros w2 ->. destruct (pkg w !! resource_path) as [content|]; [| done].
    by destruct (npy_decode content).
Qed.

(** X19: from disk, a reference with no file behind it raises
    [FileNotFoundError] for the path with [".npy"] added, and a file that
    is not an array payload raises [ValueError]; neither is turned into a
    result. *)
Theorem load_dna_from_disk_errors (file : string) (w : world) :
  let path := with_npy_suffix file in
  (fs w !! path = None →
   load_dna npy_decode file false w = (Raised (FileNotFoundError path), w))
  ∧ (∀ content,
       fs w !! path = Some content → npy_decode content = None →
       load_dna npy_decode file false w = (Raised (ValueError path), w)).
Proof.
  intros path. subst path.
  unfold load_dna, mbind, io_bind, read_file, jp_load, mret, io_ret, raise.
  split.
  - by intros ->.
  - by intros content -> ->.
Qed.

End WithCodec.

Section RoundTrip.
Context {ndarray : Type}.
Variable npy_encode : ndarray → string.
Variable npy_decode : string → option ndarray.
Hypothesis npy_roundtrip : ∀ a, npy_decode (npy_encode a) = Some a.



End RoundTrip.

Lemma save_dna_sidecar_refused_witness :
  ∃ w',
    save_dna raw_encode "123" "test" (str_obj "C") (str_obj "L") (str_obj "M")
      None None "alice" "hi" "/tmp/"
      (world_writing (λ p, bool_decide (p = "/tmp/test_42.npy")) (λ _, true) 4 42)
    = (Raised (WriteError "/tmp/test_42.txt"), w')
    ∧ fs w' !! "/tmp/test_42.npy" = Some "NUMPY123"
    ∧ fs w' !! "/tmp/test_42.txt" = Some "dna:".
Proof.
  destruct (save_dna_sidecar_refused raw_encode "123" "test" (str_obj "C")
              (str_obj "L") (str_obj "M") None None "alice" "hi" "/tmp/"
              (world_writing (λ p, bool_decide (p = "/tmp/test_42.npy"))
                 (λ _, true) 4 42))
    as (e & w' & Hrun & Hnpy & _ & Hpart).
  - reflexivity.
  - reflexivity.
  - destruct Hpart as [-> Htxt]; [reflexivity |]. by exists w'.
Defined.

Lemma save_dna_refused_witness :
  save_dna raw_encode "123" "test" (str_obj "C") (str_obj "L") (str_obj "M")
    None None "alice" "hi" "/nowhere/"
    (world_writing (λ _, false) (λ _, false) 0 42)
  = (Raised (OSError "/nowhere/test_42.npy"),
     world_writing (λ _, false) (λ _, false) 0 42).
Proof.
  destruct (save_dna_refused raw_encode "123" "test" (str_obj "C") (str_obj "L")
              (str_obj "M") None None "alice" "hi" "/nowhere/"
              (world_writing (λ _, false) (λ _, false) 0 42))
    as (e & w' & Hrun & _ & Hshut & _).
  - reflexivity.
  - destruct Hshut as [-> ->]; [reflexivity |]. exact Hrun.
Defined.

Lemma save_dna_frame_witness :
  fs (save_dna raw_encode "123" "test" (str_obj "C") (str_obj "L") (str_obj "M")
        None None "alice" "hi" "/tmp/"
        (world_holding "biomakerca/dnalib/seed.npy" "NUMPY7" "/tmp/old.npy" "NUMPY9")).2
    !! "/tmp/old.npy" = Some "NUMPY9".
Proof.
  rewrite (save_dna_frame raw_encode "123" "test" (str_obj "C") (str_obj "L")
             (str_obj "M") None None "alice" "hi" "/tmp/"
             (world_holding "biomakerca/dnalib/seed.npy" "NUMPY7" "/tmp/old.npy"
                "NUMPY9")); [reflexivity | discriminate | discriminate].
Defined.

Lemma load_dna_from_package_witness :
  load_dna raw_decode "seed" true
    (world_holding "biomakerca/dnalib/seed.npy" "NUMPY7" "/tmp/old.npy" "NUMPY9")
  = (Returned "7",
     world_holding "biomakerca/dnalib/seed.npy" "NUMPY7" "/tmp/old.npy" "NUMPY9")
  ∧ load_dna raw_decode "/tmp/old.npy" true
      (world_holding "biomakerca/dnalib/seed.npy" "NUMPY7" "/tmp/old.npy" "NUMPY9")
    = (Raised (ResourceNotFound "biomakerca/dnalib//tmp/old.npy"),
       world_holding "biomakerca/dnalib/seed.npy" "NUMPY7" "/tmp/old.npy" "NUMPY9").
Proof.
  split.
  - apply (proj1 (proj2 (load_dna_from_package raw_decode "seed"
                           (world_holding "biomakerca/dnalib/seed.npy" "NUMPY7"
                              "/tmp/old.npy" "NUMPY9"))) "NUMPY7" "7");
      reflexivity.
  - apply (proj1 (load_dna_from_package raw_decode "/tmp/old.npy"
                    (world_holding "biomakerca/dnalib/seed.npy" "NUMPY7"
                       "/tmp/old.npy" "NUMPY9"))).
    reflexivity.
Defined.

Lemma load_dna_from_disk_errors_witness :
  load_dna raw_decode "/tmp/new" false
    (world_holding "biomakerca/dnalib/seed.npy" "NUMPY7" "/tmp/old.npy" "text")
  = (Raised (FileNotFoundError "/tmp/new.npy"),
     world_holding "biomakerca/dnalib/seed.npy" "NUMPY7" "/tmp/old.npy" "text")
  ∧ load_dna raw_decode "/tmp/old.npy" false
      (world_holding "biomakerca/dnalib/seed.npy" "NUMPY7" "/tmp/old.npy" "text")
    = (Raised (ValueError "/tmp/old.npy"),
       world_holding "biomakerca/dnalib/seed.npy" "NUMPY7" "/tmp/old.npy" "text").
Proof.
  split.
  - apply (proj1 (load_dna_from_disk_errors raw_decode "/tmp/new"
                    (world_holding "biomakerca/dnalib/seed.npy" "NUMPY7"
                       "/tmp/old.npy" "text"))).
    reflexivity.
  - apply (proj2 (load_dna_from_disk_errors raw_decode "/tmp/old.npy"
                    (world_holding "biomakerca/dnalib/seed.npy" "NUMPY7"
                       "/tmp/old.npy" "text")) "text");
      reflexivity.
Defined.



End DnaLaws.
